(** * RecipeFinder: the recipe and thumbnail caches of [ProjectFolder/recipe.py]

    A shallow embedding of the caching layer of the Recipe Finder
    application ([MealAPI] and the cache methods of [ChefApp]) together
    with the properties its specification states about it, followed by
    the searches, the filters and the views that use the caches, the
    variant of the application without cache ([recipe.py]), and further
    properties of that code.

    Conventions of the embedding.
    - A Python [str] is a Rocq [string]; a character is a code point in
      the range U+0000..U+00FF.
    - A value decoded from JSON is a [json] term.  JSON numbers are the
      integers; floating point numbers are left out.
    - Python exceptions are explicit: a computation returns an [outcome],
      and code that touches the disk or the network runs in the monad [M]
      over a [world].
    - The bytes of a file or of an HTTP body are kept in decoded form, see
      [content]; [os.path] is [posixpath].
    - A file is named by the path string it was opened with, and two
      strings are two files.  For the paths of identifiers whose text
      holds no slash this is what the file system does: they are entries
      of the cache directory, one for each name.  Beyond them one file
      has several paths; the properties that compare the files of two
      identifiers are therefore stated for identifiers without a slash.
    - Running out of memory is left out, except where the imaging
      library is asked for an image of a given size: there the world
      says for which sizes it finds no memory. *)

From Stdlib Require Import ZArith NArith Ascii String List Bool Lia.
From stdpp Require Import base option list strings gmap pretty.

Local Open Scope string_scope.
Local Open Scope list_scope.

(** ** Python strings *)

Module Py.

(** [str.isspace] on one character, for code points below 256: the ASCII
    white space 9..13 and 28..32, NEL (133) and the no-break space (160). *)
Definition is_space (c : ascii) : bool :=
  let n := N_of_ascii c in
  ((9 <=? n) && (n <=? 13) || (28 <=? n) && (n <=? 32)
   || (n =? 133) || (n =? 160))%N.

Fixpoint lstrip (s : string) : string :=
  match s with
  | EmptyString => EmptyString
  | String c s' => if is_space c then lstrip s' else s
  end.

Fixpoint rstrip (s : string) : string :=
  match s with
  | EmptyString => EmptyString
  | String c s' =>
      match rstrip s' with
      | EmptyString => if is_space c then EmptyString else String c EmptyString
      | r => String c r
      end
  end.

(** [s.strip()] *)
Definition strip (s : string) : string := rstrip (lstrip s).

Definition is_empty (s : string) : bool :=
  match s with EmptyString => true | _ => false end.

(** The two quote characters and the backslash. *)
Definition squote : ascii := ascii_of_N 39.
Definition dquote : ascii := ascii_of_N 34.
Definition backslash : ascii := ascii_of_N 92.

Fixpoint contains (c : ascii) (s : string) : bool :=
  match s with
  | EmptyString => false
  | String d s' => Ascii.eqb c d || contains c s'
  end.

Definition hex_digit (n : N) : ascii :=
  if (n <? 10)%N then ascii_of_N (48 + n) else ascii_of_N (87 + n).

(** One character of [repr(s)] when the surrounding quote is [q]. *)
Definition repr_char (q c : ascii) : string :=
  let n := N_of_ascii c in
  if Ascii.eqb c q || Ascii.eqb c backslash then String backslash (String c EmptyString)
  else if (n =? 9)%N then String backslash "t"
  else if (n =? 10)%N then String backslash "n"
  else if (n =? 13)%N then String backslash "r"
  else if ((n <? 32) || (n =? 127) || (128 <=? n) && (n <=? 160) || (n =? 173))%N
       then String backslash (String "x" (String (hex_digit (n / 16)) (String (hex_digit (n mod 16)) EmptyString)))
  else String c EmptyString.

Fixpoint repr_chars (q : ascii) (s : string) : string :=
  match s with
  | EmptyString => EmptyString
  | String c s' => repr_char q c +:+ repr_chars q s'
  end.

(** [repr(s)] for a [str]: single quotes, unless the text holds a single
    quote and no double quote. *)
Definition repr_str (s : string) : string :=
  let q := if contains squote s && negb (contains dquote s) then dquote else squote in
  String q (repr_chars q s +:+ String q EmptyString).

(** [sep.join(l)] *)
Fixpoint join (sep : string) (l : list string) : string :=
  match l with
  | [] => EmptyString
  | [x] => x
  | x :: l' => x +:+ sep +:+ join sep l'
  end.

End Py.

(** ** JSON values as Python objects *)

#[warnings="-register-all"]
Inductive json : Type :=
| JNull
| JBool (b : bool)
| JInt (z : Z)
| JStr (s : string)
| JArr (l : list json)
| JObj (kvs : list (string * json)).

(** [repr(v)]; a [dict] prints its items in insertion order. *)
Fixpoint py_repr (v : json) : string :=
  match v with
  | JNull => "None"
  | JBool true => "True"
  | JBool false => "False"
  | JInt z => pretty z
  | JStr s => Py.repr_str s
  | JArr l => "[" +:+ Py.join ", " (map py_repr l) +:+ "]"
  | JObj kvs =>
      "{" +:+ Py.join ", " (map (fun kv => Py.repr_str (fst kv) +:+ ": " +:+ py_repr (snd kv)) kvs) +:+ "}"
  end.

(** [str(v)], which is what an f-string field [{v}] interpolates. *)
Definition py_str (v : json) : string :=
  match v with
  | JStr s => s
  | _ => py_repr v
  end.

(** [bool(v)] *)
Definition truthy (v : json) : bool :=
  match v with
  | JNull => false
  | JBool b => b
  | JInt z => negb (z =? 0)%Z
  | JStr s => negb (Py.is_empty s)
  | JArr l => match l with [] => false | _ => true end
  | JObj kvs => match kvs with [] => false | _ => true end
  end.

(** Lookup in a [dict], kept as its list of items. *)
Fixpoint assoc (k : string) (kvs : list (string * json)) : option json :=
  match kvs with
  | [] => None
  | (k', v) :: rest => if String.eqb k k' then Some v else assoc k rest
  end.

(** ** Exceptions *)

Inductive exn : Type :=
| KeyError
| TypeError
| AttributeError
| ValueError
| OSError
| IndexError
| JSONDecodeError
| UnidentifiedImageError
| OverflowError
| MemoryError
| RequestException.

Inductive outcome (A : Type) : Type :=
| Returned (a : A)
| Raised (e : exn).
Arguments Returned {A} a.
Arguments Raised {A} e.

Definition obind {A B} (x : outcome A) (k : A -> outcome B) : outcome B :=
  match x with
  | Returned a => k a
  | Raised e => Raised e
  end.

Declare Scope outcome_scope.
Delimit Scope outcome_scope with out.
Notation "x <~ c1 ; c2" := (obind c1 (fun x => c2))
  (at level 100, c1 at next level, right associativity) : outcome_scope.

(** [d.get(k)]: [None] for a missing key; an object without [get]
    raises. *)
Definition dict_get (d : json) (k : string) : outcome json :=
  match d with
  | JObj kvs => Returned (default JNull (assoc k kvs))
  | _ => Raised AttributeError
  end.

(** [d.get(k, dflt)] *)
Definition dict_get_default (d : json) (k : string) (dflt : json) : outcome json :=
  match d with
  | JObj kvs => Returned (default dflt (assoc k kvs))
  | _ => Raised AttributeError
  end.

(** [d[k]] with a string key [k]. *)
Definition subscript (d : json) (k : string) : outcome json :=
  match d with
  | JObj kvs =>
      match assoc k kvs with
      | Some v => Returned v
      | None => Raised KeyError
      end
  | _ => Raised TypeError
  end.

(** [v.strip()]: only a [str] has the method. *)
Definition str_strip (v : json) : outcome string :=
  match v with
  | JStr s => Returned (Py.strip s)
  | _ => Raised AttributeError
  end.

(** ** Ingredient extraction *)

(** The body of the loop of [get_recipe_details] (and, word for word, of
    [get_random_recipe]) for slot [i], on the list built so far. *)
Definition ingredient_step (meal : json) (ingredients : list string) (i : nat)
  : outcome (list string) :=
  (ingredient <~ dict_get meal ("strIngredient" +:+ pretty i);
   measure <~ dict_get meal ("strMeasure" +:+ pretty i);
   if truthy ingredient then
     stripped <~ str_strip ingredient;
     if negb (Py.is_empty stripped) then
       Returned (ingredients ++ [Py.strip (py_str measure +:+ " " +:+ py_str ingredient)])
     else Returned ingredients
   else Returned ingredients)%out.

Fixpoint for_slots (meal : json) (slots : list nat) (ingredients : list string)
  : outcome (list string) :=
  match slots with
  | [] => Returned ingredients
  | i :: rest =>
      (ingredients' <~ ingredient_step meal ingredients i;
       for_slots meal rest ingredients')%out
  end.

(** [ingredients = []; for i in range(1, 21): ...] *)
Definition extract_ingredients (meal : json) : outcome (list string) :=
  for_slots meal (seq 1 20) [].


(** ** Images, file contents and the world *)

Inductive image_format : Type := JPEG | PNG | GIF | WEBP.

Inductive image_mode : Type := ModeL | ModeRGB | ModeCMYK | ModeRGBA | ModeP.

(** Pixel data is kept symbolic: where it came from and which transforms
    were applied to it. *)
Inductive pixels : Type :=
| Source (n : nat)
| Resampled (p : pixels) (w h : Z)
| JpegCoded (p : pixels).

Record image : Type := mkImage {
  im_mode : image_mode;
  im_width : Z;
  im_height : Z;
  im_data : pixels
}.

(** A byte string, classified by what it decodes to: the serialization of
    a JSON value ([json.load] of what [json.dump] wrote gives the value
    back), an image in some container format, or neither.  Two byte
    strings with different classifications are different byte strings;
    equal classifications do not claim equal bytes. *)
Inductive content : Type :=
| Doc (j : json)
| Picture (f : image_format) (im : image)
| Junk (raw : string).

(** What a GET of a URL yields: no answer (connection error, timeout), or
    a response with its status (2xx or not) and its body. *)
Inductive http_reply : Type :=
| NoReply
| Reply (status_ok : bool) (body : content).

(** How writing to a path behaves: normally, failing when the file is
    opened, or failing after the file was opened; a write that fails late
    leaves the part [partial] that reached the file, which is a strict
    prefix of a document and parses as nothing. *)
Inductive disk_fault : Type :=
| NoFault
| OpenFails
| IOFails (partial : string).

(** What the code did to the outside: a request sent, a file opened for
    writing. *)
Inductive event : Type :=
| Fetch (url : string)
| Write (path : string).

(** [Recipe]: the seven attributes set by [__init__]; each holds whatever
    the constructor was given. *)
Record Recipe : Type := mkRecipe {
  meal_id : json;
  name : json;
  category : json;
  area : json;
  instructions : json;
  thumbnail : json;
  ingredients : json
}.

(** The state the code runs in: the files by path, what the remote source
    answers at the moment, which paths fail to be read or written, for
    which sizes the imaging library finds no memory (by the size of the
    image it has and the size of the image it is to make of it), the
    attribute [self.all_recipes], and the events so far, oldest first. *)
Record world : Type := mkWorld {
  fs : gmap string content;
  remote : string -> http_reply;
  read_fault : string -> bool;
  write_fault : string -> disk_fault;
  memory_fault : Z * Z -> Z * Z -> bool;
  all_recipes : list Recipe;
  log : list event
}.

Definition set_fs (f : gmap string content -> gmap string content) (w : world) : world :=
  mkWorld (f (fs w)) (remote w) (read_fault w) (write_fault w) (memory_fault w)
          (all_recipes w) (log w).

Definition set_all_recipes (l : list Recipe) (w : world) : world :=
  mkWorld (fs w) (remote w) (read_fault w) (write_fault w) (memory_fault w) l (log w).

Definition add_event (e : event) (w : world) : world :=
  mkWorld (fs w) (remote w) (read_fault w) (write_fault w) (memory_fault w)
          (all_recipes w) (log w ++ [e]).

(** ** The monad of effectful code *)

Definition M (A : Type) : Type := world -> outcome A * world.

Definition ret {A} (a : A) : M A := fun w => (Returned a, w).

Definition raise {A} (e : exn) : M A := fun w => (Raised e, w).

Definition bind {A B} (m : M A) (k : A -> M B) : M B :=
  fun w =>
    match m w with
    | (Returned a, w') => k a w'
    | (Raised e, w') => (Raised e, w')
    end.

Definition lift {A} (x : outcome A) : M A := fun w => (x, w).

Definition gets {A} (f : world -> A) : M A := fun w => (Returned (f w), w).

Definition modify (f : world -> world) : M unit := fun w => (Returned tt, f w).

(** [try: body except <handled>: handler] *)
Definition try_except {A} (handled : exn -> bool) (body : M A) (handler : M A) : M A :=
  fun w =>
    match body w with
    | (Returned a, w') => (Returned a, w')
    | (Raised e, w') => if handled e then handler w' else (Raised e, w')
    end.

(** A bare [except:] and [except Exception] *)
Definition any_exception (e : exn) : bool := true.

(** [except requests.exceptions.RequestException] *)
Definition request_exception (e : exn) : bool :=
  match e with RequestException => true | _ => false end.

Declare Scope monad_scope.
Delimit Scope monad_scope with M.
Notation "x <- c1 ;; c2" := (bind c1 (fun x => c2))
  (at level 100, c1 at next level, right associativity) : monad_scope.
Notation "c1 ;; c2" := (bind c1 (fun _ => c2))
  (at level 100, right associativity) : monad_scope.

(** ** Library calls *)

(** [os.path.join(a, b)] of [posixpath]. *)
Definition ends_with_slash (a : string) : bool :=
  match String.rev a with
  | String c _ => Ascii.eqb c "/"
  | EmptyString => false
  end.

Definition path_join (a b : string) : string :=
  match b with
  | String "/" _ => b
  | _ => if Py.is_empty a || ends_with_slash a then a +:+ b else a +:+ "/" +:+ b
  end.

(** [os.path.exists(path)]; it never raises. *)
Definition path_exists (path : string) : M bool :=
  gets (fun w => bool_decide (is_Some (fs w !! path))).

(** [requests.get(url, timeout=...)] *)
Definition requests_get (url : string) : M (bool * content) :=
  (modify (add_event (Fetch url));;
   reply <- gets (fun w => remote w url);;
   match reply with
   | NoReply => raise RequestException
   | Reply ok body => ret (ok, body)
   end)%M.

(** [response.raise_for_status()] *)
Definition raise_for_status (response : bool * content) : M unit :=
  if fst response then ret tt else raise RequestException.

(** [response.json()]; a body that is not JSON raises
    [requests.exceptions.JSONDecodeError], a [RequestException]. *)
Definition response_json (response : bool * content) : M json :=
  match snd response with
  | Doc j => ret j
  | _ => raise RequestException
  end.

(** [with open(path, 'r') as f: json.load(f)] *)
Definition read_json (path : string) : M json :=
  (fault <- gets (fun w => read_fault w path);;
   file <- gets (fun w => fs w !! path);;
   match fault, file with
   | false, Some (Doc j) => ret j
   | false, Some (Picture _ _) => raise ValueError
   | false, Some (Junk _) => raise JSONDecodeError
   | _, _ => raise OSError
   end)%M.

(** [with open(path, 'w') as f: json.dump(data, f)]; opening truncates the
    file. *)
Definition write_json (path : string) (data : json) : M unit :=
  (fault <- gets (fun w => write_fault w path);;
   match fault with
   | OpenFails => raise OSError
   | IOFails partial =>
       modify (add_event (Write path));;
       modify (set_fs (insert path (Junk partial)));;
       raise OSError
   | NoFault =>
       modify (add_event (Write path));;
       modify (set_fs (insert path (Doc data)))
   end)%M.

(** [Image.open(fp)] followed by the decoding that the first use of the
    image triggers. *)
Definition image_open (c : option content) : M image :=
  match c with
  | Some (Picture _ im) => ret im
  | Some _ => raise UnidentifiedImageError
  | None => raise OSError
  end.

Definition jpeg_mode (m : image_mode) : bool :=
  match m with
  | ModeL | ModeRGB | ModeCMYK => true
  | ModeRGBA | ModeP => false
  end.

(** The image that decoding its JPEG encoding gives back: same mode and
    size, pixel data that went through the JPEG coder. *)
Definition jpeg_recode (im : image) : image :=
  mkImage (im_mode im) (im_width im) (im_height im) (JpegCoded (im_data im)).

(** [img.save(path, "JPEG")] for a path that does not exist yet: the
    image is encoded again, as JPEG; when the encoder or the storage
    fails, the file that [save] created is removed and the error is
    raised. *)
Definition image_save_jpeg (im : image) (path : string) : M unit :=
  (fault <- gets (fun w => write_fault w path);;
   match fault with
   | OpenFails => raise OSError
   | IOFails _ => modify (add_event (Write path));; raise OSError
   | NoFault =>
       modify (add_event (Write path));;
       if jpeg_mode (im_mode im) then
         modify (set_fs (insert path (Picture JPEG (jpeg_recode im))))
       else raise OSError
   end)%M.

(** The image [resize] computes when it succeeds; an image that already
    has the size is copied. *)
Definition lanczos_resize (im : image) (width height : Z) : image :=
  if ((im_width im =? width) && (im_height im =? height))%Z
  then im
  else mkImage (im_mode im) width height (Resampled (im_data im) width height).

(** The number fits a C [int], which is what the imaging library takes a
    size as. *)
Definition c_int (n : Z) : bool :=
  ((-2147483648 <=? n) && (n <=? 2147483647))%Z.

(** [img.resize((width, height), Image.Resampling.LANCZOS)]: a size that
    is the size of the image asks for a copy and is not checked;
    otherwise a size that does not fit a C [int] raises [OverflowError]
    and a size below 1 raises [ValueError].  Then the image is made,
    which raises [MemoryError] when the library finds no memory for it;
    this stands for the [PhotoImage] made of the result as well. *)
Definition image_resize (im : image) (width height : Z) : M image :=
  ((if ((im_width im =? width) && (im_height im =? height))%Z then ret tt
    else if negb (c_int width && c_int height) then raise OverflowError
    else if ((width <? 1) || (height <? 1))%Z then raise ValueError
    else ret tt);;
   fault <- gets (fun w => memory_fault w (im_width im, im_height im) (width, height));;
   if fault then raise MemoryError
   else ret (lanczos_resize im width height))%M.

(** [len(v)] *)
Definition py_len (v : json) : outcome nat :=
  match v with
  | JStr s => Returned (String.length s)
  | JArr l => Returned (length l)
  | JObj kvs => Returned (length kvs)
  | _ => Raised TypeError
  end.

(** [v[0]] *)
Definition index0 (v : json) : outcome json :=
  match v with
  | JArr (x :: _) => Returned x
  | JArr [] => Raised IndexError
  | JStr (String c _) => Returned (JStr (String c EmptyString))
  | JStr EmptyString => Raised IndexError
  | JObj _ => Raised KeyError
  | _ => Raised TypeError
  end.

Fixpoint chars (s : string) : list json :=
  match s with
  | EmptyString => []
  | String c s' => JStr (String c EmptyString) :: chars s'
  end.

(** The items that [for x in v[:n]] visits. *)
Definition py_slice (v : json) (n : nat) : outcome (list json) :=
  match v with
  | JArr l => Returned (firstn n l)
  | JStr s => Returned (firstn n (chars s))
  | _ => Raised TypeError
  end.

(** [for x in l: body(x)] *)
Fixpoint for_each {A} (l : list A) (body : A -> M unit) : M unit :=
  match l with
  | [] => ret tt
  | x :: rest => (body x;; for_each rest body)%M
  end.

(** ** [MealAPI] *)

Module MealAPI.

Definition BASE_URL : string := "https://www.themealdb.com/api/json/v1/1".

(** [search_by_ingredient]: the list under ['meals'], an empty list when
    there is none, [None] on a request error. *)
Definition search_by_ingredient (ingredient : string) : M (option json) :=
  try_except request_exception
    (let url := BASE_URL +:+ "/filter.php?i=" +:+ ingredient in
     response <- requests_get url;;
     raise_for_status response;;
     data <- response_json response;;
     meals <- lift (dict_get data "meals");;
     if truthy meals then
       meals' <- lift (subscript data "meals");;
       ret (Some meals')
     else ret (Some (JArr [])))%M
    (ret None).

(** [Recipe(meal_id=meal['idMeal'], ...)] after the ingredient loop. *)
Definition recipe_of_meal (meal : json) : outcome Recipe :=
  (ingredients <~ extract_ingredients meal;
   idMeal <~ subscript meal "idMeal";
   strMeal <~ subscript meal "strMeal";
   strCategory <~ dict_get_default meal "strCategory" (JStr "Unknown");
   strArea <~ dict_get_default meal "strArea" (JStr "Unknown");
   strInstructions <~ subscript meal "strInstructions";
   strMealThumb <~ subscript meal "strMealThumb";
   Returned (mkRecipe idMeal strMeal strCategory strArea strInstructions
                      strMealThumb (JArr (map JStr ingredients))))%out.

(** [if data.get('meals') and len(data['meals']) > 0: ... return None] *)
Definition first_recipe (data : json) : outcome (option Recipe) :=
  (meals <~ dict_get data "meals";
   if truthy meals then
     meals' <~ subscript data "meals";
     n <~ py_len meals';
     if (0 <? n)%nat then
       meals'' <~ subscript data "meals";
       meal <~ index0 meals'';
       recipe <~ recipe_of_meal meal;
       Returned (Some recipe)
     else Returned None
   else Returned None)%out.

Definition get_recipe_details (meal_id : json) : M (option Recipe) :=
  try_except request_exception
    (let url := BASE_URL +:+ "/lookup.php?i=" +:+ py_str meal_id in
     response <- requests_get url;;
     raise_for_status response;;
     data <- response_json response;;
     lift (first_recipe data))%M
    (ret None).

Definition get_random_recipe : M (option Recipe) :=
  try_except request_exception
    (let url := BASE_URL +:+ "/random.php" in
     response <- requests_get url;;
     raise_for_status response;;
     data <- response_json response;;
     lift (first_recipe data))%M
    (ret None).

End MealAPI.

(** ** [ChefApp]: the caches *)

Module ChefApp.

Definition images_dir : string := "images".

Definition recipe_cache_file (meal_id : json) : string :=
  path_join images_dir (py_str meal_id +:+ "_recipe.json").

Definition image_cache_file (meal_id : json) : string :=
  path_join images_dir (py_str meal_id +:+ ".jpg").

(** [Recipe(meal_id=data['meal_id'], ...)] *)
Definition recipe_of_data (data : json) : outcome Recipe :=
  (meal_id <~ subscript data "meal_id";
   name <~ subscript data "name";
   category <~ subscript data "category";
   area <~ subscript data "area";
   instructions <~ subscript data "instructions";
   thumbnail <~ subscript data "thumbnail";
   ingredients <~ subscript data "ingredients";
   Returned (mkRecipe meal_id name category area instructions thumbnail ingredients))%out.

Definition load_recipe_cache (meal_id : json) : M (option Recipe) :=
  (let cache_file := recipe_cache_file meal_id in
   present <- path_exists cache_file;;
   if present then
     try_except any_exception
       (data <- read_json cache_file;;
        recipe <- lift (recipe_of_data data);;
        ret (Some recipe))
       (ret None)
   else ret None)%M.

Definition data_of_recipe (recipe : Recipe) : json :=
  JObj [("meal_id", meal_id recipe);
        ("name", name recipe);
        ("category", category recipe);
        ("area", area recipe);
        ("instructions", instructions recipe);
        ("thumbnail", thumbnail recipe);
        ("ingredients", ingredients recipe)].

Definition save_recipe_cache (recipe : Recipe) : M unit :=
  (let cache_file := recipe_cache_file (meal_id recipe) in
   try_except any_exception
     (write_json cache_file (data_of_recipe recipe))
     (ret tt))%M.

(** [Image.open(cache_filename)] on a file of the disk. *)
Definition read_image (path : string) : M image :=
  (fault <- gets (fun w => read_fault w path);;
   file <- gets (fun w => fs w !! path);;
   if fault then raise OSError else image_open file)%M.

(** [load_image_cached]; the [PhotoImage] that is returned is identified
    with the resized image it wraps. *)
Definition load_image_cached (url meal_id : json) (width height : Z) : M (option image) :=
  (let cache_filename := image_cache_file meal_id in
   try_except any_exception
     (present <- path_exists cache_filename;;
      img_data <-
        (if present then read_image cache_filename
         else
           response <- requests_get (py_str url);;
           img_data <- image_open (Some (snd response));;
           image_save_jpeg img_data cache_filename;;
           ret img_data);;
      img_data <- image_resize img_data width height;;
      ret (Some img_data))
     (ret None))%M.

(** The read-through steps of the loop bodies of [search_recipes] and
    [view_all_recipes] (the same lines in both): the value of [recipe]
    when the body reaches [if recipe:]. *)
Definition read_through (meal : json) : M (option Recipe) :=
  (id <- lift (subscript meal "idMeal");;
   recipe <- load_recipe_cache id;;
   match recipe with
   | Some r => ret (Some r)
   | None =>
       id' <- lift (subscript meal "idMeal");;
       recipe <- MealAPI.get_recipe_details id';;
       match recipe with
       | Some r => save_recipe_cache r;; ret (Some r)
       | None => ret None
       end
   end)%M.

Definition loop_body (meal : json) : M unit :=
  (recipe <- read_through meal;;
   match recipe with
   | Some r => modify (fun w => set_all_recipes (all_recipes w ++ [r]) w)
   | None => ret tt
   end)%M.

End ChefApp.

(** ** More of Python's [str] *)

(** [str.lower] on one character, for code points below 256: the ASCII
    capitals and the Latin-1 capitals 192..222 (not the multiplication
    sign 215) move up by 32. *)
Definition lower_char (c : ascii) : ascii :=
  let n := N_of_ascii c in
  if ((65 <=? n) && (n <=? 90) || (192 <=? n) && (n <=? 222) && negb (n =? 215))%N
  then ascii_of_N (n + 32)
  else c.

Fixpoint str_lower (s : string) : string :=
  match s with
  | EmptyString => EmptyString
  | String c s' => String (lower_char c) (str_lower s')
  end.

(** [needle in hay] for two strings. *)
Fixpoint str_in (needle hay : string) : bool :=
  String.prefix needle hay
  || match hay with
     | EmptyString => false
     | String _ rest => str_in needle rest
     end.

(** [v.lower()]: only a [str] has the method. *)
Definition lower (v : json) : outcome string :=
  match v with
  | JStr s => Returned (str_lower s)
  | _ => Raised AttributeError
  end.

(** The items that [for x in v] visits; a [dict] yields its keys. *)
Definition py_iter (v : json) : outcome (list json) :=
  match v with
  | JArr l => Returned l
  | JStr s => Returned (chars s)
  | JObj kvs => Returned (map (fun kv => JStr (fst kv)) kvs)
  | _ => Raised TypeError
  end.

(** [hash(v)] raises for a [list] and a [dict]. *)
Definition hashable (v : json) : bool :=
  match v with
  | JArr _ | JObj _ => false
  | _ => true
  end.

(** ** [ChefApp]: the searches and what is shown *)

(** A card of the grid: where it is placed, the text of its label and the
    thumbnail, if one could be loaded.  The colour of the card depends on
    [hash] and is left out. *)
Record card : Type := mkCard {
  card_row : nat;
  card_col : nat;
  card_text : json;
  card_photo : option image
}.

(** The attributes of the application the views work on: the recipes on
    display, the three filter check boxes and the cards of the grid.  A
    method that changes them takes the record and returns the new one;
    when the method raises, what it had changed so far is not tracked. *)
Record gui : Type := mkGui {
  current_recipes : list Recipe;
  filter_chicken : bool;
  filter_beef : bool;
  filter_seafood : bool;
  cards : list card
}.

(** The detail view: the picture and the two columns of ingredients. *)
Record detail : Type := mkDetail {
  detail_photo : option image;
  column1 : list json;
  column2 : list json
}.

Module ChefUI.

(** The body of the loop of [apply_filters] for one recipe, on the list
    [current] built so far. *)
Definition filter_step (g : gui) (current : list Recipe) (recipe : Recipe)
  : outcome (list Recipe) :=
  (category_lower <~ lower (category recipe);
   name_lower <~ lower (name recipe);
   if filter_chicken g
      && (str_in "chicken" category_lower || str_in "chicken" name_lower)
   then Returned (current ++ [recipe])
   else if filter_beef g
           && (str_in "beef" category_lower || str_in "beef" name_lower)
   then Returned (current ++ [recipe])
   else if filter_seafood g
           && (str_in "seafood" category_lower || str_in "fish" name_lower
               || str_in "prawn" name_lower || str_in "salmon" name_lower)
   then Returned (current ++ [recipe])
   else Returned current)%out.

Fixpoint filter_loop (g : gui) (all : list Recipe) (current : list Recipe)
  : outcome (list Recipe) :=
  match all with
  | [] => Returned current
  | recipe :: rest =>
      (current' <~ filter_step g current recipe;
       filter_loop g rest current')%out
  end.

(** The list [apply_filters] assigns to [self.current_recipes]. *)
Definition select (g : gui) (all : list Recipe) : outcome (list Recipe) :=
  if negb (filter_chicken g || filter_beef g || filter_seafood g)
  then Returned all
  else filter_loop g all [].

(** [recipe.name[:18] + "..." if len(recipe.name) > 18 else recipe.name] *)
Definition label_text (name : json) : outcome json :=
  (n <~ py_len name;
   if (18 <? n)%nat then
     match name with
     | JStr s => Returned (JStr (String.substring 0 18 s +:+ "..."))
     | _ => Raised TypeError
     end
   else Returned name)%out.

(** [create_recipe_card]: the text of the label and the thumbnail. *)
Definition create_recipe_card (recipe : Recipe) : M (json * option image) :=
  ((if hashable (meal_id recipe) then ret tt else raise TypeError);;
   photo <- ChefApp.load_image_cached (thumbnail recipe) (meal_id recipe) 120 90;;
   text <- lift (label_text (name recipe));;
   ret (text, photo))%M.

(** [for idx, recipe in enumerate(...)] of [display_recipe_cards], from
    index [idx] on, with the cards [shown] placed so far. *)
Fixpoint display_from (idx : nat) (current : list Recipe) (shown : list card)
  : M (list card) :=
  match current with
  | [] => ret shown
  | recipe :: rest =>
      (let row := idx / 5 in
       let col := idx mod 5 in
       c <- create_recipe_card recipe;;
       display_from (S idx) rest (shown ++ [mkCard row col (fst c) (snd c)]))%M
  end.

Definition display_recipe_cards (current : list Recipe) : M (list card) :=
  display_from 0 current [].

(** [apply_filters]; the dialogue label is left out. *)
Definition apply_filters (g : gui) : M gui :=
  (all <- gets all_recipes;;
   match all with
   | [] => ret g
   | _ =>
       current <- lift (select g all);;
       shown <- display_recipe_cards current;;
       ret (mkGui current (filter_chicken g) (filter_beef g) (filter_seafood g) shown)
   end)%M.

(** The loop of [show_recipe_detail] that deals the ingredients to the
    two columns, from index [i] on. *)
Fixpoint columns_from (i mid : nat) (items col1 col2 : list json)
  : list json * list json :=
  match items with
  | [] => (col1, col2)
  | x :: rest =>
      if (i <? mid)%nat then columns_from (S i) mid rest (col1 ++ [x]) col2
      else columns_from (S i) mid rest col1 (col2 ++ [x])
  end.

(** [show_recipe_detail]; the dialogue and the text labels are left out. *)
Definition show_recipe_detail (recipe : Recipe) : M detail :=
  (photo <- ChefApp.load_image_cached (thumbnail recipe) (meal_id recipe) 150 150;;
   n <- lift (py_len (ingredients recipe));;
   items <- lift (py_iter (ingredients recipe));;
   let cols := columns_from 0 (n / 2) items [] [] in
   ret (mkDetail photo (fst cols) (snd cols)))%M.

(** [ChefApp.get_random_recipe]: [None] stands for the error box. *)
Definition get_random_recipe : M (option detail) :=
  (recipe <- MealAPI.get_random_recipe;;
   match recipe with
   | None => ret None
   | Some r => d <- show_recipe_detail r;; ret (Some d)
   end)%M.

(** [search_recipes]: the search, the loop over the first ten results
    and [apply_filters]; the message boxes, the dialogue label and the
    redrawing of the window ([root.update()]) are left out. *)
Definition search_recipes (g : gui) (ingredient : string) : M gui :=
  (results <- MealAPI.search_by_ingredient ingredient;;
   match results with
   | None => ret g
   | Some results =>
       n <- lift (py_len results);;
       if (n =? 0)%nat then ret g
       else
         modify (set_all_recipes []);;
         meals <- lift (py_slice results 10);;
         for_each meals ChefApp.loop_body;;
         apply_filters g
   end)%M.

(** [view_all_recipes]: three searches with their loops, then
    [apply_filters]; the dialogue label and the redrawing of the window
    are left out. *)
Definition view_all_recipes (g : gui) : M gui :=
  (modify (set_all_recipes []);;
   for_each ["chicken"; "beef"; "salmon"] (fun ingredient =>
     results <- MealAPI.search_by_ingredient ingredient;;
     match results with
     | Some results =>
         if truthy results then
           meals <- lift (py_slice results 3);;
           for_each meals ChefApp.loop_body
         else ret tt
     | None => ret tt
     end);;
   apply_filters g)%M.

(** [do_search] of [show_search_dialog] on the text of the entry; the
    result tells whether the dialog was closed. *)
Definition do_search (g : gui) (text : string) : M (bool * gui) :=
  (let ingredient := Py.strip text in
   if Py.is_empty ingredient then ret (false, g)
   else g' <- search_recipes g ingredient;; ret (true, g'))%M.

End ChefUI.

(** ** The application without cache ([recipe.py]) *)

Module PlainApp.

(** The body of the loop of [search_recipes]. *)
Definition loop_body (meal : json) : M unit :=
  (id <- lift (subscript meal "idMeal");;
   recipe <- MealAPI.get_recipe_details id;;
   match recipe with
   | Some r => modify (fun w => set_all_recipes (all_recipes w ++ [r]) w)
   | None => ret tt
   end)%M.

(** [create_recipe_card]: the picture is fetched for every card, inside
    a [try] with a bare [except]. *)
Definition create_recipe_card (recipe : Recipe) : M (json * option image) :=
  ((if hashable (meal_id recipe) then ret tt else raise TypeError);;
   photo <- try_except any_exception
              (response <- requests_get (py_str (thumbnail recipe));;
               img_data <- image_open (Some (snd response));;
               img_data <- image_resize img_data 120 90;;
               ret (Some img_data))
              (ret None);;
   text <- lift (ChefUI.label_text (name recipe));;
   ret (text, photo))%M.

(** The loop of [display_recipe_cards], from index [idx] on. *)
Fixpoint display_from (idx : nat) (current : list Recipe) (shown : list card)
  : M (list card) :=
  match current with
  | [] => ret shown
  | recipe :: rest =>
      (let row := idx / 5 in
       let col := idx mod 5 in
       c <- create_recipe_card recipe;;
       display_from (S idx) rest (shown ++ [mkCard row col (fst c) (snd c)]))%M
  end.

Definition display_recipe_cards (current : list Recipe) : M (list card) :=
  display_from 0 current [].

(** [apply_filters]: the lines are those of the caching application, so
    the selection is [ChefUI.select]; the cards are the cards of this
    one. *)
Definition apply_filters (g : gui) : M gui :=
  (all <- gets all_recipes;;
   match all with
   | [] => ret g
   | _ =>
       current <- lift (ChefUI.select g all);;
       shown <- display_recipe_cards current;;
       ret (mkGui current (filter_chicken g) (filter_beef g) (filter_seafood g) shown)
   end)%M.

(** [search_recipes]: the search, the loop and [apply_filters]. *)
Definition search_recipes (g : gui) (ingredient : string) : M gui :=
  (results <- MealAPI.search_by_ingredient ingredient;;
   match results with
   | None => ret g
   | Some results =>
       n <- lift (py_len results);;
       if (n =? 0)%nat then ret g
       else
         modify (set_all_recipes []);;
         meals <- lift (py_slice results 10);;
         for_each meals loop_body;;
         apply_filters g
   end)%M.

Definition view_all_recipes (g : gui) : M gui := search_recipes g "chicken".

End PlainApp.

(** ** What the claims speak about *)

(** The two fields of slot [i] as the loop reads them with [meal.get]. *)
Definition slot_ingredient (kvs : list (string * json)) (i : nat) : json :=
  default JNull (assoc ("strIngredient" +:+ pretty i) kvs).

Definition slot_measure (kvs : list (string * json)) (i : nat) : json :=
  default JNull (assoc ("strMeasure" +:+ pretty i) kvs).

(** A slot is retained when its ingredient is text with something else
    than white space in it. *)
Definition retained (kvs : list (string * json)) (i : nat) : bool :=
  match slot_ingredient kvs i with
  | JStr s => negb (Py.is_empty (Py.strip s))
  | _ => false
  end.

(** The entry a retained slot contributes. *)
Definition entry (kvs : list (string * json)) (i : nat) : string :=
  Py.strip (py_str (slot_measure kvs i) +:+ " " +:+ py_str (slot_ingredient kvs i)).

(** The ingredient of the slot is text, or a value that counts as false
    (null, 0, an empty container). *)
Definition textual (kvs : list (string * json)) (i : nat) : bool :=
  match slot_ingredient kvs i with
  | JStr _ => true
  | v => negb (truthy v)
  end.

(** The payload of the specification's example, slots 4 to 20 empty. *)
Definition example_meal : json :=
  JObj ([("idMeal", JStr "52772");
         ("strIngredient1", JStr "Salt"); ("strMeasure1", JStr "1 tsp");
         ("strIngredient2", JStr "");
         ("strIngredient3", JStr "Pepper"); ("strMeasure3", JStr "2 pinch")]
        ++ flat_map (fun i => [("strIngredient" +:+ pretty i, JStr "");
                               ("strMeasure" +:+ pretty i, JStr "")]) (seq 4 17)).

(** The record a stored byte string stands for, when it is the
    serialization of a well-formed record. *)
Definition parse_record (c : content) : option Recipe :=
  match c with
  | Doc j =>
      match ChefApp.recipe_of_data j with
      | Returned r => Some r
      | Raised _ => None
      end
  | _ => None
  end.

(** The record the cache holds for an identifier. *)
Definition cached (w : world) (id : json) : option Recipe :=
  fs w !! ChefApp.recipe_cache_file id ≫= parse_record.

(** The world after [save_recipe_cache]. *)
Definition after_save (recipe : Recipe) (w : world) : world :=
  let p := ChefApp.recipe_cache_file (meal_id recipe) in
  match write_fault w p with
  | NoFault => set_fs (insert p (Doc (ChefApp.data_of_recipe recipe))) (add_event (Write p) w)
  | OpenFails => w
  | IOFails partial => set_fs (insert p (Junk partial)) (add_event (Write p) w)
  end.

(** The search result [meal] names an identifier whose record [r] the
    cache holds in readable form. *)
Definition hit (w : world) (meal : json) (r : Recipe) : Prop :=
  exists id, subscript meal "idMeal" = Returned id
             /\ cached w id = Some r
             /\ read_fault w (ChefApp.recipe_cache_file id) = false.

(** The URL [get_recipe_details] requests for an identifier. *)
Definition lookup_url (id : json) : string :=
  MealAPI.BASE_URL +:+ "/lookup.php?i=" +:+ py_str id.

(** The path starts at the root. *)
Definition absolute (b : string) : bool :=
  match b with
  | String c _ => Ascii.eqb c "/"
  | EmptyString => false
  end.

(** The URL [search_by_ingredient] requests for an ingredient. *)
Definition search_url (ingredient : string) : string :=
  MealAPI.BASE_URL +:+ "/filter.php?i=" +:+ ingredient.


(** A remote source that answers every request with the JSON value [j]. *)
Definition json_remote (j : json) : string -> http_reply :=
  fun _ => Reply true (Doc j).

(** The remote source answers the lookup of [id] with the record [R]. *)
Definition serves (w : world) (id : json) (R : Recipe) : Prop :=
  exists data, remote w (lookup_url id) = Reply true (Doc data)
               /\ MealAPI.first_recipe data = Returned (Some R).

Definition is_fetch (e : event) : bool :=
  match e with Fetch _ => true | Write _ => false end.

(** Number of requests sent to the remote source so far. *)
Definition fetches (w : world) : nat := length (List.filter is_fetch (log w)).

(** From [w] to [w'] the remote source and the faults of the store are
    the same, at most [kf] requests were sent and at most [kr] recipes
    were appended to the recipe list. *)
Definition grows (kf kr : nat) (w w' : world) : Prop :=
  remote w' = remote w
  /\ read_fault w' = read_fault w
  /\ write_fault w' = write_fault w
  /\ fetches w <= fetches w' <= fetches w + kf
  /\ exists new, all_recipes w' = all_recipes w ++ new /\ length new <= kr.

(** The remote source files every record under the identifier it was
    asked for. *)
Definition remote_keyed (w : world) : Prop :=
  forall id r,
    fst (MealAPI.get_recipe_details id w) = Returned (Some r) ->
    py_str (meal_id r) = py_str id.

(** Every record in the cache is what the remote source serves for its
    identifier now. *)
Definition cache_fresh (w : world) : Prop :=
  forall id r,
    cached w id = Some r ->
    fst (MealAPI.get_recipe_details id w) = Returned (Some r).

(** The store works: no path fails to be read or written. *)
Definition no_faults (w : world) : Prop :=
  (forall p, read_fault w p = false) /\ (forall p, write_fault w p = NoFault).


(** From [w] to [w'] no file changed, and every event is a request. *)
Definition disk_untouched (w w' : world) : Prop :=
  fs w' = fs w
  /\ exists l, log w' = log w ++ l /\ Forall (fun e => is_fetch e = true) l.

(** The recipe has text as category and as name. *)
Definition labelled (r : Recipe) : bool :=
  match category r, name r with
  | JStr _, JStr _ => true
  | _, _ => false
  end.

(** The recipe matches one of the ticked filters: chicken or beef in the
    category or the name, or seafood in the category or fish, prawn or
    salmon in the name, all compared in lower case. *)
Definition keeps (g : gui) (r : Recipe) : bool :=
  match category r, name r with
  | JStr c, JStr n =>
      let c := str_lower c in
      let n := str_lower n in
      filter_chicken g && (str_in "chicken" c || str_in "chicken" n)
      || filter_beef g && (str_in "beef" c || str_in "beef" n)
      || filter_seafood g && (str_in "seafood" c || str_in "fish" n
                              || str_in "prawn" n || str_in "salmon" n)
  | _, _ => false
  end.

(** Some filter is ticked. *)
Definition filtering (g : gui) : bool :=
  filter_chicken g || filter_beef g || filter_seafood g.


(** From [w] to [w'] the record cache, the recipe list and the remote
    source are the same, and at most [kf] requests were sent. *)
Definition only_images (kf : nat) (w w' : world) : Prop :=
  (forall id, cached w' id = cached w id)
  /\ all_recipes w' = all_recipes w
  /\ remote w' = remote w
  /\ fetches w <= fetches w' <= fetches w + kf.

(** The place of the card with index [k] in the grid. *)
Definition grid_place (k : nat) : nat * nat := (k / 5, k mod 5).

Definition dims (im : image) : Z * Z := (im_width im, im_height im).



(** The components of a path, split at every slash. *)
Fixpoint components (s : string) : list string :=
  match s with
  | EmptyString => [EmptyString]
  | String c s' =>
      if Ascii.eqb c "/" then EmptyString :: components s'
      else match components s' with
           | x :: xs => String c x :: xs
           | [] => [String c EmptyString]
           end
  end.

(** Walking the components below the cache directory: the depth reached,
    or [None] as soon as the walk leaves the directory. *)
Fixpoint descend (cs : list string) (depth : nat) : option nat :=
  match cs with
  | [] => Some depth
  | c :: rest =>
      if String.eqb c "" || String.eqb c "." then descend rest depth
      else if String.eqb c ".." then
        match depth with
        | O => None
        | S d => descend rest d
        end
      else descend rest (S depth)
  end.

(** The path names a file below the cache directory [images]. *)
Definition inside_cache_dir (path : string) : bool :=
  match components path with
  | dir :: rest =>
      String.eqb dir ChefApp.images_dir
      && match descend rest 0 with
         | Some (S _) => true
         | _ => false
         end
  | [] => false
  end.

Definition has_slash (s : string) : bool := Py.contains "/" s.

(** Every search result of the list that names an identifier names one
    whose text holds no slash, so that its cache files are entries of the
    cache directory and two identifiers with different texts have
    different files. *)
Definition plain_ids (meals : list json) : Prop :=
  Forall (fun meal => forall id, subscript meal "idMeal" = Returned id ->
                                 has_slash (py_str id) = false) meals.

(** The part of [search_recipes] before [apply_filters], for the loop
    body [body] (the two applications differ in it only); the result
    tells whether [apply_filters] is reached. *)
Definition gather (body : json -> M unit) (ingredient : string) : M bool :=
  (results <- MealAPI.search_by_ingredient ingredient;;
   match results with
   | None => ret false
   | Some results =>
       n <- lift (py_len results);;
       if (n =? 0)%nat then ret false
       else
         modify (set_all_recipes []);;
         meals <- lift (py_slice results 10);;
         for_each meals body;;
         ret true
   end)%M.


(** A card can be made for the recipe: its identifier can be hashed and
    its name is text. *)
Definition cardable (r : Recipe) : bool :=
  hashable (meal_id r) && match name r with JStr _ => true | _ => false end.



(** What a card shows apart from its picture. *)
Definition face (c : card) : nat * nat * json :=
  (card_row c, card_col c, card_text c).

(** Two runs end with the same display: both raise the same exception,
    or both return, with the same recipes on display, the same filters,
    and cards that differ in their pictures at most. *)
Definition same_display (a b : outcome gui) : Prop :=
  match a, b with
  | Returned ga, Returned gb =>
      current_recipes ga = current_recipes gb
      /\ filter_chicken ga = filter_chicken gb
      /\ filter_beef ga = filter_beef gb
      /\ filter_seafood ga = filter_seafood gb
      /\ map face (cards ga) = map face (cards gb)
  | Raised ea, Raised eb => ea = eb
  | _, _ => False
  end.

(** Worlds used to exercise the theorems: an empty disk without faults,
    and a remote source described by a function. *)
Definition world_of (r : string -> http_reply) (files : gmap string content) : world :=
  mkWorld files r (fun _ => false) (fun _ => NoFault) (fun _ _ => false) [] [].

Definition offline : string -> http_reply := fun _ => NoReply.

Definition example_recipe : Recipe :=
  mkRecipe (JStr "52772") (JStr "Teriyaki Chicken") (JStr "Chicken") (JStr "Japanese")
           (JStr "Simmer.") (JStr "https://www.themealdb.com/images/media/meals/t.jpg")
           (JArr [JStr "1 tsp Salt"; JStr "2 pinch Pepper"]).

Definition example_payload : json :=
  JObj [("idMeal", JStr "52772"); ("strMeal", JStr "Teriyaki Chicken");
        ("strCategory", JStr "Chicken"); ("strArea", JStr "Japanese");
        ("strInstructions", JStr "Simmer.");
        ("strMealThumb", JStr "https://www.themealdb.com/images/media/meals/t.jpg");
        ("strIngredient1", JStr "Salt"); ("strMeasure1", JStr "1 tsp");
        ("strIngredient2", JStr "");
        ("strIngredient3", JStr "Pepper"); ("strMeasure3", JStr "2 pinch")].

(** A world without network whose writes all behave as [wf]. *)
Definition faulty_world (wf : disk_fault) (files : gmap string content) : world :=
  mkWorld files offline (fun _ => false) (fun _ => wf) (fun _ _ => false) [] [].

Definition example_picture : image := mkImage ModeRGB 700 700 (Source 0).

(** A remote source that answers every request with the example picture
    in the container format [f]. *)
Definition picture_remote (f : image_format) : string -> http_reply :=
  fun _ => Reply true (Picture f example_picture).

(** A remote source that knows the example recipe only. *)
Definition example_remote (url : string) : http_reply :=
  if String.eqb url (lookup_url (JStr "52772"))
  then Reply true (Doc (JObj [("meals", JArr [example_payload])]))
  else NoReply.

(** A remote source that finds the example recipe for "egg" and knows
    nothing else. *)
Definition cookbook_remote (url : string) : http_reply :=
  if String.eqb url (search_url "egg")
  then Reply true (Doc (JObj [("meals", JArr [JObj [("idMeal", JStr "52772")]])]))
  else example_remote url.

(** ** Facts about [strip] *)

Section Strip.

Lemma rstrip_cons_nonempty c s :
  Py.rstrip s <> EmptyString -> Py.rstrip (String c s) = String c (Py.rstrip s).
Proof.
  intros Hne. simpl. destruct (Py.rstrip s); [congruence | reflexivity].
Qed.

Lemma rstrip_cons_visible c s :
  Py.is_space c = false -> Py.rstrip (String c s) = String c (Py.rstrip s).
Proof.
  intros Hc. simpl. rewrite Hc. destruct (Py.rstrip s); reflexivity.
Qed.

Lemma rstrip_empty_strip s :
  Py.rstrip s = EmptyString -> Py.strip s = EmptyString.
Proof.
  unfold Py.strip. induction s as [|c s IH]; [reflexivity |].
  simpl. destruct (Py.rstrip s) eqn:Hr.
  - destruct (Py.is_space c); [intros _; now apply IH | discriminate].
  - discriminate.
Qed.

Lemma strip_nonempty_rstrip s :
  Py.strip s <> EmptyString -> Py.rstrip s <> EmptyString.
Proof. intros Hne Hr. apply Hne. now apply rstrip_empty_strip. Qed.

Lemma lstrip_head s c r :
  Py.lstrip s = String c r -> Py.is_space c = false.
Proof.
  induction s as [|d s IH]; simpl; [discriminate |].
  destruct (Py.is_space d) eqn:Hd; [exact IH |].
  intros [= -> _]. exact Hd.
Qed.

Lemma strip_head s c r :
  Py.strip s = String c r -> Py.is_space c = false.
Proof.
  unfold Py.strip. destruct (Py.lstrip s) as [|d t] eqn:Hl; [discriminate |].
  pose proof (lstrip_head _ _ _ Hl) as Hd.
  rewrite (rstrip_cons_visible _ _ Hd). now intros [= <- _].
Qed.

Lemma strip_space_prefix s : Py.strip (" " +:+ s) = Py.strip s.
Proof. reflexivity. Qed.

Lemma strip_None_prefix s :
  Py.strip s <> EmptyString ->
  Py.strip ("None " +:+ s) = "None " +:+ Py.rstrip s.
Proof.
  intros Hne. apply strip_nonempty_rstrip in Hne.
  unfold Py.strip. change (Py.lstrip ("None " +:+ s)) with ("None " +:+ s).
  change ("None " +:+ s)
    with (String "N" (String "o" (String "n" (String "e" (String " " s))))).
  rewrite (rstrip_cons_visible "N"), (rstrip_cons_visible "o"),
    (rstrip_cons_visible "n"), (rstrip_cons_visible "e") by reflexivity.
  now rewrite (rstrip_cons_nonempty " " s Hne).
Qed.

End Strip.

(** ** Ingredient extraction *)

Section Extraction.

Variable kvs : list (string * json).

Lemma ingredient_step_textual acc i :
  textual kvs i = true ->
  ingredient_step (JObj kvs) acc i
  = Returned (acc ++ (if retained kvs i then [entry kvs i] else [])).
Proof.
  unfold textual, retained, entry, ingredient_step, slot_ingredient, slot_measure.
  generalize ("strIngredient" +:+ pretty i) ("strMeasure" +:+ pretty i).
  intros ki km. cbn [dict_get obind].
  destruct (default JNull (assoc ki kvs)) as [|b|z|s|l|o];
    cbn [truthy str_strip obind py_str negb]; intros Ht.
  - now rewrite app_nil_r.
  - apply negb_true_iff in Ht. rewrite Ht. now rewrite app_nil_r.
  - destruct (z =? 0)%Z; [now rewrite app_nil_r | discriminate].
  - destruct s as [|c s]; [cbn; now rewrite app_nil_r |].
    cbn [Py.is_empty negb].
    destruct (Py.is_empty (Py.strip (String c s))); cbn [negb];
      [now rewrite app_nil_r | reflexivity].
  - destruct l; [now rewrite app_nil_r | discriminate].
  - destruct o; [now rewrite app_nil_r | discriminate].
Qed.

Lemma for_slots_textual slots : forall acc,
  Forall (fun i => textual kvs i = true) slots ->
  for_slots (JObj kvs) slots acc
  = Returned (acc ++ map (entry kvs) (List.filter (retained kvs) slots)).
Proof.
  induction slots as [|i rest IH]; intros acc Hall.
  - simpl. now rewrite app_nil_r.
  - inversion Hall as [|? ? Hi Hrest]; subst.
    cbn [for_slots]. rewrite (ingredient_step_textual acc i Hi). cbn [obind].
    rewrite (IH _ Hrest). cbn [List.filter].
    destruct (retained kvs i); cbn [map]; [| now rewrite app_nil_r].
    now rewrite <- app_assoc.
Qed.

Lemma filter_three (f : nat -> bool) a b c :
  f a = true -> f b = false -> f c = true -> List.filter f [a; b; c] = [a; c].
Proof. intros Ha Hb Hc. simpl. now rewrite Ha, Hb, Hc. Qed.

Lemma filter_none (f : nat -> bool) l :
  (forall x, In x l -> f x = false) -> List.filter f l = [].
Proof.
  induction l as [|x l IH]; intros Hf; [reflexivity |].
  simpl. rewrite (Hf x (or_introl eq_refl)). apply IH.
  intros y Hy. apply Hf. now right.
Qed.

Lemma retained_nonempty i :
  retained kvs i = true ->
  exists s, assoc ("strIngredient" +:+ pretty i) kvs = Some (JStr s) /\ s <> EmptyString.
Proof.
  unfold retained, slot_ingredient.
  destruct (assoc ("strIngredient" +:+ pretty i) kvs) as [v|]; simpl; [| discriminate].
  destruct v as [| | |s| |]; try discriminate.
  intros Hs. exists s. split; [reflexivity |]. intros ->. discriminate.
Qed.

Lemma not_retained_empty i :
  slot_ingredient kvs i = JStr EmptyString \/ slot_ingredient kvs i = JNull ->
  retained kvs i = false /\ textual kvs i = true.
Proof. unfold retained, textual. intros [-> | ->]; split; reflexivity. Qed.

End Extraction.

(** C3.  When every ingredient field of the payload is text or empty, the
    ingredient loop returns the entries of the retained slots among 1..20
    in slot order; a retained slot has a non-empty ingredient field; and
    with Salt / 1 tsp in slot 1, an empty slot 2, Pepper / 2 pinch in
    slot 3 and nothing above, the result is ["1 tsp Salt"; "2 pinch
    Pepper"]. *)
Theorem ingredient_extraction (kvs : list (string * json)) :
  (forall i, 1 <= i <= 20 -> textual kvs i = true) ->
  extract_ingredients (JObj kvs)
  = Returned (map (entry kvs) (List.filter (retained kvs) (seq 1 20)))
  /\ (forall i, retained kvs i = true ->
        exists s, assoc ("strIngredient" +:+ pretty i) kvs = Some (JStr s)
                  /\ s <> EmptyString)
  /\ (slot_ingredient kvs 1 = JStr "Salt" -> slot_measure kvs 1 = JStr "1 tsp" ->
      slot_ingredient kvs 2 = JStr "" ->
      slot_ingredient kvs 3 = JStr "Pepper" -> slot_measure kvs 3 = JStr "2 pinch" ->
      (forall i, 4 <= i <= 20 ->
         slot_ingredient kvs i = JStr "" \/ slot_ingredient kvs i = JNull) ->
      extract_ingredients (JObj kvs) = Returned ["1 tsp Salt"; "2 pinch Pepper"]).
Proof.
  intros Htext.
  assert (Hrun : extract_ingredients (JObj kvs)
                 = Returned (map (entry kvs) (List.filter (retained kvs) (seq 1 20)))).
  { unfold extract_ingredients. rewrite for_slots_textual; [reflexivity |].
    apply Forall_forall. intros i Hi. apply Htext.
    apply (proj1 (list_elem_of_In _ _)), in_seq in Hi. lia. }
  split; [exact Hrun |]. split; [apply retained_nonempty |].
  intros H1 M1 H2 H3 M3 Hrest. rewrite Hrun. clear Hrun Htext.
  assert (Hno : forall i, 4 <= i <= 20 -> retained kvs i = false).
  { intros i Hi. now apply not_retained_empty, Hrest. }
  assert (R1 : retained kvs 1 = true) by (unfold retained; rewrite H1; reflexivity).
  assert (R2 : retained kvs 2 = false) by (unfold retained; rewrite H2; reflexivity).
  assert (R3 : retained kvs 3 = true) by (unfold retained; rewrite H3; reflexivity).
  change (seq 1 20) with ([1; 2; 3] ++ seq 4 17).
  rewrite List.filter_app, (filter_three _ _ _ _ R1 R2 R3), filter_none.
  - cbn [app map]. unfold entry. rewrite H1, M1, H3, M3. reflexivity.
  - intros i Hi. apply in_seq in Hi. apply Hno. lia.
Qed.

Lemma ingredient_extraction_witness :
  extract_ingredients example_meal = Returned ["1 tsp Salt"; "2 pinch Pepper"].
Proof.
  refine (proj2 (proj2 (ingredient_extraction _ _)) _ _ _ _ _ _);
    try (vm_compute; reflexivity).
  - intros i Hi.
    assert (Hcases : i = 1 \/ i = 2 \/ i = 3 \/ i = 4 \/ i = 5 \/ i = 6 \/ i = 7
                     \/ i = 8 \/ i = 9 \/ i = 10 \/ i = 11 \/ i = 12 \/ i = 13
                     \/ i = 14 \/ i = 15 \/ i = 16 \/ i = 17 \/ i = 18 \/ i = 19
                     \/ i = 20) by lia.
    repeat (destruct Hcases as [-> | Hcases]; [vm_compute; reflexivity |]).
    subst i. vm_compute; reflexivity.
  - intros i Hi.
    assert (Hcases : i = 4 \/ i = 5 \/ i = 6 \/ i = 7
                     \/ i = 8 \/ i = 9 \/ i = 10 \/ i = 11 \/ i = 12 \/ i = 13
                     \/ i = 14 \/ i = 15 \/ i = 16 \/ i = 17 \/ i = 18 \/ i = 19
                     \/ i = 20) by lia.
    left.
    repeat (destruct Hcases as [-> | Hcases]; [vm_compute; reflexivity |]).
    subst i. vm_compute; reflexivity.
Defined.

(** C10.  A retained slot contributes the stripped interpolation of its
    measure, a space and its ingredient.  With the empty string as
    measure the entry is the stripped ingredient, so it has no leading
    white space and is the ingredient itself when that has none around
    it; with a missing or null measure the entry begins with the text
    [None ] followed by the ingredient. *)
Theorem ingredient_entry_format (kvs : list (string * json)) (i : nat)
    (acc : list string) (ing : string) :
  slot_ingredient kvs i = JStr ing ->
  Py.strip ing <> EmptyString ->
  let e := Py.strip (py_str (slot_measure kvs i) +:+ " " +:+ ing) in
  ingredient_step (JObj kvs) acc i = Returned (acc ++ [e])
  /\ (slot_measure kvs i = JStr "" ->
      e = Py.strip ing
      /\ (forall c rest, e = String c rest -> Py.is_space c = false)
      /\ (Py.strip ing = ing -> e = ing))
  /\ (slot_measure kvs i = JNull ->
      e = "None " +:+ Py.rstrip ing
      /\ exists rest, e = "None " +:+ rest).
Proof.
  intros Hing Hne e. split; [| split].
  - rewrite ingredient_step_textual by (unfold textual; now rewrite Hing).
    unfold retained, entry. rewrite Hing. subst e. cbn [py_str].
    destruct (Py.strip ing); [congruence | reflexivity].
  - intros Hm. subst e. rewrite Hm. cbn [py_str].
    change ("" +:+ " " +:+ ing) with (" " +:+ ing). rewrite strip_space_prefix.
    split; [reflexivity |]. split; [apply strip_head | trivial].
  - intros Hm. subst e. rewrite Hm.
    change (py_str JNull +:+ " " +:+ ing) with ("None " +:+ ing).
    rewrite (strip_None_prefix _ Hne). split; [reflexivity | now eexists].
Qed.

Lemma ingredient_entry_format_witness :
  ingredient_step (JObj [("strIngredient1", JStr "Salt")]) [] 1
  = Returned ["None Salt"].
Proof.
  refine (proj1 (ingredient_entry_format [("strIngredient1", JStr "Salt")] 1 [] "Salt" _ _)).
  - vm_compute. reflexivity.
  - vm_compute. discriminate.
Defined.


(** ** The record cache *)

Ltac run :=
  cbv beta zeta delta [bind ret raise lift gets modify try_except any_exception
                       request_exception path_exists read_json write_json
                       requests_get raise_for_status response_json] iota.

Section RecordCache.

Lemma recipe_of_data_of_recipe r :
  ChefApp.recipe_of_data (ChefApp.data_of_recipe r) = Returned r.
Proof. destruct r. reflexivity. Qed.

Lemma parse_record_stored r :
  parse_record (Doc (ChefApp.data_of_recipe r)) = Some r.
Proof. unfold parse_record. now rewrite recipe_of_data_of_recipe. Qed.

(** [load_recipe_cache] returns, leaves the world as it is, and yields the
    stored record exactly when the file can be read and parsed. *)
Lemma load_recipe_cache_spec w id :
  ChefApp.load_recipe_cache id w
  = (Returned (if read_fault w (ChefApp.recipe_cache_file id)
               then None else cached w id), w).
Proof.
  unfold ChefApp.load_recipe_cache, cached.
  generalize (ChefApp.recipe_cache_file id). intros p. run.
  destruct (fs w !! p) as [c|] eqn:Hf.
  - rewrite bool_decide_eq_true_2 by eauto. rewrite Hf.
    destruct (read_fault w p); cbn [fst snd mbind option_bind]; try reflexivity.
    destruct c as [j| |]; cbn [parse_record]; try reflexivity.
    destruct (ChefApp.recipe_of_data j); reflexivity.
  - rewrite bool_decide_eq_false_2 by (intros [? ?]; discriminate).
    destruct (read_fault w p); reflexivity.
Qed.

Lemma save_recipe_cache_spec w recipe :
  ChefApp.save_recipe_cache recipe w = (Returned tt, after_save recipe w).
Proof.
  unfold ChefApp.save_recipe_cache, after_save.
  generalize (ChefApp.recipe_cache_file (meal_id recipe)). intros p. run.
  destruct (write_fault w p); reflexivity.
Qed.

Lemma cached_after_write w p c id :
  cached (set_fs (insert p c) (add_event (Write p) w)) id
  = if decide (p = ChefApp.recipe_cache_file id) then parse_record c else cached w id.
Proof.
  unfold cached. cbn [fs set_fs add_event].
  rewrite lookup_insert. destruct (decide (p = ChefApp.recipe_cache_file id)); reflexivity.
Qed.

End RecordCache.

Section Put.

Variables (w : world) (recipe : Recipe).

Lemma after_save_frame :
  remote (after_save recipe w) = remote w
  /\ read_fault (after_save recipe w) = read_fault w
  /\ write_fault (after_save recipe w) = write_fault w
  /\ all_recipes (after_save recipe w) = all_recipes w.
Proof. unfold after_save. destruct (write_fault w _); repeat split; reflexivity. Qed.

Lemma after_save_ok :
  write_fault w (ChefApp.recipe_cache_file (meal_id recipe)) = NoFault ->
  after_save recipe w
  = set_fs (insert (ChefApp.recipe_cache_file (meal_id recipe))
                   (Doc (ChefApp.data_of_recipe recipe)))
           (add_event (Write (ChefApp.recipe_cache_file (meal_id recipe))) w).
Proof. unfold after_save. now intros ->. Qed.

Lemma cached_after_save_ok id :
  write_fault w (ChefApp.recipe_cache_file (meal_id recipe)) = NoFault ->
  ChefApp.recipe_cache_file id = ChefApp.recipe_cache_file (meal_id recipe) ->
  cached (after_save recipe w) id = Some recipe.
Proof.
  intros Hw Hp. rewrite (after_save_ok Hw), cached_after_write.
  rewrite decide_True by now symmetry. apply parse_record_stored.
Qed.

(** After a put that failed, a lookup finds nothing or what was there. *)
Lemma cached_after_save_failed id :
  write_fault w (ChefApp.recipe_cache_file (meal_id recipe)) <> NoFault ->
  cached (after_save recipe w) id = None \/ cached (after_save recipe w) id = cached w id.
Proof.
  unfold after_save. intros Hw.
  destruct (write_fault w _) as [| |partial]; [congruence | now right |].
  rewrite cached_after_write. case_decide; [now left | now right].
Qed.

End Put.

(** C4.  [load_recipe_cache] and [save_recipe_cache] always return.  A
    lookup changes nothing; when the file of the identifier is there but
    is not a well-formed record, the lookup returns [None] and the file
    stays as it is.  A put returns also when the write fails; the remote
    source and the recipe list are not affected, a write that fails on
    opening changes nothing at all, and after any failed write a lookup
    returns [None] or what it returned before. *)
Theorem cache_failures_never_escalate (w : world) (id : json) (recipe : Recipe) :
  (exists r, ChefApp.load_recipe_cache id w = (Returned r, w))
  /\ (forall c, fs w !! ChefApp.recipe_cache_file id = Some c ->
                parse_record c = None ->
                ChefApp.load_recipe_cache id w = (Returned None, w))
  /\ (exists w', ChefApp.save_recipe_cache recipe w = (Returned tt, w')
        /\ remote w' = remote w /\ all_recipes w' = all_recipes w
        /\ (write_fault w (ChefApp.recipe_cache_file (meal_id recipe)) = OpenFails ->
            w' = w)
        /\ (write_fault w (ChefApp.recipe_cache_file (meal_id recipe)) <> NoFault ->
            forall id2 r2,
              ChefApp.load_recipe_cache id2 w' = (Returned r2, w') ->
              r2 = None \/ ChefApp.load_recipe_cache id2 w = (Returned r2, w))).
Proof.
  split; [| split].
  - eexists. apply load_recipe_cache_spec.
  - intros c Hc Hbad. rewrite load_recipe_cache_spec. unfold cached. rewrite Hc.
    cbn [mbind option_bind]. rewrite Hbad. now destruct (read_fault w _).
  - exists (after_save recipe w). split; [apply save_recipe_cache_spec |].
    destruct (after_save_frame w recipe) as (Hr & Hrf & Hwf & Ha).
    split; [exact Hr |]. split; [exact Ha |]. split.
    + unfold after_save. now intros ->.
    + intros Hw id2 r2. rewrite !load_recipe_cache_spec, Hrf.
      intros [= <-]. destruct (read_fault w _); [now left |].
      destruct (cached_after_save_failed w recipe id2 Hw) as [-> | ->];
        [now left | now right].
Qed.

Lemma cache_failures_never_escalate_witness :
  ChefApp.load_recipe_cache (JStr "52772")
    (world_of offline {[ "images/52772_recipe.json" := Junk "{oops" ]})
  = (Returned None, world_of offline {[ "images/52772_recipe.json" := Junk "{oops" ]})
  /\ (exists w', ChefApp.save_recipe_cache example_recipe (faulty_world OpenFails ∅)
                 = (Returned tt, w')
                 /\ w' = faulty_world OpenFails ∅)
  /\ (exists w', ChefApp.save_recipe_cache example_recipe (faulty_world (IOFails "{") ∅)
                 = (Returned tt, w')
                 /\ forall r2, ChefApp.load_recipe_cache (JStr "52772") w' = (Returned r2, w') ->
                               r2 = None).
Proof.
  split; [| split].
  - apply (proj1 (proj2 (cache_failures_never_escalate
                           (world_of offline {[ "images/52772_recipe.json" := Junk "{oops" ]})
                           (JStr "52772") example_recipe)) (Junk "{oops"));
      vm_compute; reflexivity.
  - destruct (proj2 (proj2 (cache_failures_never_escalate
                              (faulty_world OpenFails ∅) (JStr "52772") example_recipe)))
      as (w' & Hsave & _ & _ & Hopen & _).
    exists w'. split; [exact Hsave |]. apply Hopen. vm_compute; reflexivity.
  - destruct (proj2 (proj2 (cache_failures_never_escalate
                              (faulty_world (IOFails "{") ∅) (JStr "52772") example_recipe)))
      as (w' & Hsave & _ & _ & _ & Hfail).
    exists w'. split; [exact Hsave |]. intros r2 Hload.
    destruct (Hfail ltac:(vm_compute; discriminate) _ _ Hload) as [-> | Hbefore];
      [reflexivity |].
    vm_compute in Hbefore. now injection Hbefore as <-.
Defined.

(** C7.  With a working store, putting a record makes a lookup of its
    identifier return it; putting the same record again leaves the stored
    files and the lookup as they are; putting another record with the
    same identifier makes the lookup return the new record, and the file
    holds the seven fields of the new record and nothing of the old. *)
Theorem put_idempotent_and_replacing (w : world) (r r' : Recipe) :
  let p := ChefApp.recipe_cache_file (meal_id r) in
  meal_id r' = meal_id r ->
  write_fault w p = NoFault ->
  read_fault w p = false ->
  let w1 := snd (ChefApp.save_recipe_cache r w) in
  let w2 := snd (ChefApp.save_recipe_cache r w1) in
  let w3 := snd (ChefApp.save_recipe_cache r' w2) in
  ChefApp.load_recipe_cache (meal_id r) w1 = (Returned (Some r), w1)
  /\ ChefApp.load_recipe_cache (meal_id r) w2 = (Returned (Some r), w2)
  /\ fs w2 = fs w1
  /\ ChefApp.load_recipe_cache (meal_id r) w3 = (Returned (Some r'), w3)
  /\ fs w3 !! p = Some (Doc (ChefApp.data_of_recipe r')).
Proof.
  intros p Hid Hw Hr w1 w2 w3. subst w1 w2 w3.
  rewrite !save_recipe_cache_spec. cbn [snd].
  set (w1 := after_save r w). set (w2 := after_save r w1). set (w3 := after_save r' w2).
  destruct (after_save_frame w r) as (_ & Hr1 & Hw1 & _). fold w1 in Hr1, Hw1.
  destruct (after_save_frame w1 r) as (_ & Hr2 & Hw2 & _). fold w2 in Hr2, Hw2.
  destruct (after_save_frame w2 r') as (_ & Hr3 & Hw3 & _). fold w3 in Hr3, Hw3.
  assert (Hw1p : write_fault w1 p = NoFault) by now rewrite Hw1.
  assert (Hw2p : write_fault w2 p = NoFault) by now rewrite Hw2, Hw1.
  assert (Hw2p' : write_fault w2 (ChefApp.recipe_cache_file (meal_id r')) = NoFault)
    by now rewrite Hid.
  rewrite !load_recipe_cache_spec.
  rewrite Hr3, Hr2, Hr1. fold p. rewrite Hr.
  repeat split.
  - unfold w1. now rewrite cached_after_save_ok.
  - unfold w2. now rewrite cached_after_save_ok.
  - unfold w2. rewrite (after_save_ok w1 r Hw1p). fold p. cbn [fs set_fs add_event].
    unfold w1. rewrite (after_save_ok w r Hw). fold p. cbn [fs set_fs add_event].
    apply insert_insert_eq.
  - unfold w3. rewrite cached_after_save_ok; [reflexivity | assumption | now rewrite Hid].
  - unfold w3. rewrite (after_save_ok w2 r' Hw2p'). rewrite Hid. fold p.
    cbn [fs set_fs add_event]. apply lookup_insert_eq.
Qed.

Lemma put_idempotent_and_replacing_witness :
  let r := example_recipe in
  let r' := mkRecipe (JStr "52772") (JStr "Renamed") JNull JNull JNull JNull (JArr []) in
  let w3 := snd (ChefApp.save_recipe_cache r'
              (snd (ChefApp.save_recipe_cache r
                 (snd (ChefApp.save_recipe_cache r (world_of offline ∅)))))) in
  ChefApp.load_recipe_cache (JStr "52772") w3 = (Returned (Some r'), w3).
Proof.
  intros r r' w3.
  refine (proj1 (proj2 (proj2 (proj2
            (put_idempotent_and_replacing (world_of offline ∅) r r' _ _ _))))).
  - reflexivity.
  - vm_compute; reflexivity.
  - vm_compute; reflexivity.
Defined.

(** ** The read-through workflow *)

Section ReadThrough.

(** [get_recipe_details] sends one request and touches nothing else. *)
Lemma get_recipe_details_spec w id :
  MealAPI.get_recipe_details id w
  = (match remote w (lookup_url id) with
     | Reply true (Doc data) =>
         match MealAPI.first_recipe data with
         | Raised RequestException => Returned None
         | res => res
         end
     | _ => Returned None
     end, add_event (Fetch (lookup_url id)) w).
Proof.
  unfold MealAPI.get_recipe_details. fold (lookup_url id).
  generalize (lookup_url id). intros url. run. cbn [remote add_event].
  destruct (remote w url) as [|ok body]; [reflexivity |].
  destruct ok; cbn [fst snd]; [| reflexivity].
  destruct body as [data| |]; try reflexivity.
  destruct (MealAPI.first_recipe data) as [res|e]; [reflexivity |].
  destruct e; reflexivity.
Qed.

Lemma get_recipe_details_served w id R :
  serves w id R ->
  MealAPI.get_recipe_details id w
  = (Returned (Some R), add_event (Fetch (lookup_url id)) w).
Proof.
  intros (data & Hreply & Hrec). now rewrite get_recipe_details_spec, Hreply, Hrec.
Qed.

Lemma read_through_unfold w meal id :
  subscript meal "idMeal" = Returned id ->
  ChefApp.read_through meal w
  = match (if read_fault w (ChefApp.recipe_cache_file id) then None else cached w id) with
    | Some r => (Returned (Some r), w)
    | None =>
        match MealAPI.get_recipe_details id w with
        | (Returned (Some r), w1) => (Returned (Some r), after_save r w1)
        | other => other
        end
    end.
Proof.
  intros Hid. unfold ChefApp.read_through.
  cbv beta delta [bind lift] iota. rewrite Hid.
  rewrite load_recipe_cache_spec.
  destruct (if read_fault w _ then None else cached w id) as [r|];
    [reflexivity |].
  destruct (MealAPI.get_recipe_details id w) as [[[r|]|e] w1]; try reflexivity.
  rewrite save_recipe_cache_spec. reflexivity.
Qed.

Lemma read_through_hit w meal id r :
  subscript meal "idMeal" = Returned id ->
  cached w id = Some r ->
  read_fault w (ChefApp.recipe_cache_file id) = false ->
  ChefApp.read_through meal w = (Returned (Some r), w).
Proof. intros Hid Hc Hr. now rewrite (read_through_unfold w meal id Hid), Hr, Hc. Qed.

(** A miss answered by the remote source: one request, then one write. *)
Lemma read_through_miss_served w meal id R :
  subscript meal "idMeal" = Returned id ->
  cached w id = None ->
  serves w id R ->
  py_str (meal_id R) = py_str id ->
  write_fault w (ChefApp.recipe_cache_file id) = NoFault ->
  ChefApp.read_through meal w
  = (Returned (Some R),
     set_fs (insert (ChefApp.recipe_cache_file id) (Doc (ChefApp.data_of_recipe R)))
       (add_event (Write (ChefApp.recipe_cache_file id))
          (add_event (Fetch (lookup_url id)) w))).
Proof.
  intros Hid Hc Hs Hkey Hw.
  rewrite (read_through_unfold w meal id Hid), Hc.
  replace (if read_fault w _ then None else None) with (@None Recipe)
    by now destruct (read_fault w _).
  rewrite (get_recipe_details_served w id R Hs).
  assert (Hp : ChefApp.recipe_cache_file (meal_id R) = ChefApp.recipe_cache_file id)
    by (unfold ChefApp.recipe_cache_file; now rewrite Hkey).
  rewrite after_save_ok; rewrite Hp; [reflexivity | exact Hw].
Qed.

End ReadThrough.

(** C1.  When the cache holds no record for the identifier of a search
    result, the remote source answers the lookup with a record [R] filed
    under that identifier, and the store accepts the write, the
    read-through steps send one request, write the record to the cache
    and then return [R]; afterwards a lookup of the identifier returns
    [R], whatever the remote source has become. *)
Theorem read_through_correct (w : world) (meal id : json) (R : Recipe) :
  subscript meal "idMeal" = Returned id ->
  cached w id = None ->
  serves w id R ->
  py_str (meal_id R) = py_str id ->
  write_fault w (ChefApp.recipe_cache_file id) = NoFault ->
  exists w',
    ChefApp.read_through meal w = (Returned (Some R), w')
    /\ log w' = log w ++ [Fetch (lookup_url id); Write (ChefApp.recipe_cache_file id)]
    /\ fs w' = <[ChefApp.recipe_cache_file id := Doc (ChefApp.data_of_recipe R)]> (fs w)
    /\ forall w'', fs w'' = fs w' ->
                   read_fault w'' (ChefApp.recipe_cache_file id) = false ->
                   ChefApp.load_recipe_cache id w'' = (Returned (Some R), w'').
Proof.
  intros Hid Hc Hs Hkey Hw. eexists. split; [| split; [| split]].
  - apply (read_through_miss_served w meal id R); assumption.
  - cbn [log set_fs add_event]. now rewrite <- app_assoc.
  - reflexivity.
  - intros w'' Hfs Hr. rewrite load_recipe_cache_spec, Hr. unfold cached.
    rewrite Hfs. cbn [fs set_fs add_event]. rewrite lookup_insert_eq.
    cbn [mbind option_bind]. now rewrite parse_record_stored.
Qed.

Lemma example_served files : serves (world_of example_remote files) (JStr "52772") example_recipe.
Proof.
  exists (JObj [("meals", JArr [example_payload])]). split.
  - unfold world_of. cbn [remote]. unfold example_remote.
    now rewrite String.eqb_refl.
  - vm_compute. reflexivity.
Qed.

Lemma read_through_correct_witness :
  exists w',
    ChefApp.read_through example_payload (world_of example_remote ∅)
    = (Returned (Some example_recipe), w')
    /\ log w' = [Fetch (lookup_url (JStr "52772")); Write "images/52772_recipe.json"]
    /\ fs w' = {[ "images/52772_recipe.json" := Doc (ChefApp.data_of_recipe example_recipe) ]}
    /\ forall w'', fs w'' = fs w' ->
                   read_fault w'' "images/52772_recipe.json" = false ->
                   ChefApp.load_recipe_cache (JStr "52772") w'' = (Returned (Some example_recipe), w'').
Proof.
  apply (read_through_correct (world_of example_remote ∅) example_payload
           (JStr "52772") example_recipe).
  - reflexivity.
  - reflexivity.
  - apply example_served.
  - reflexivity.
  - reflexivity.
Defined.

(** C5.  When the cache holds no record for the identifier and the lookup
    at the remote source yields no record, the read-through steps yield
    no record either and write nothing: the stored files are the same and
    the only event is the request.  On any later world with the same
    files in which the remote source serves a record for the identifier
    and the store accepts writes, the read-through steps send the request
    again and return that record. *)
Theorem negative_results_not_cached (w : world) (meal id : json) :
  subscript meal "idMeal" = Returned id ->
  cached w id = None ->
  (forall R, fst (MealAPI.get_recipe_details id w) <> Returned (Some R)) ->
  (forall R, fst (ChefApp.read_through meal w) <> Returned (Some R))
  /\ fs (snd (ChefApp.read_through meal w)) = fs w
  /\ log (snd (ChefApp.read_through meal w)) = log w ++ [Fetch (lookup_url id)]
  /\ forall w2 R,
       fs w2 = fs (snd (ChefApp.read_through meal w)) ->
       serves w2 id R ->
       py_str (meal_id R) = py_str id ->
       write_fault w2 (ChefApp.recipe_cache_file id) = NoFault ->
       exists w3,
         ChefApp.read_through meal w2 = (Returned (Some R), w3)
         /\ log w3 = log w2 ++ [Fetch (lookup_url id);
                                Write (ChefApp.recipe_cache_file id)].
Proof.
  intros Hid Hc Hfail.
  assert (Hrun : ChefApp.read_through meal w = MealAPI.get_recipe_details id w
                 /\ snd (MealAPI.get_recipe_details id w)
                    = add_event (Fetch (lookup_url id)) w).
  { rewrite (read_through_unfold w meal id Hid), Hc.
    replace (if read_fault w _ then None else None) with (@None Recipe)
      by now destruct (read_fault w _).
    split; [| now rewrite get_recipe_details_spec].
    destruct (MealAPI.get_recipe_details id w) as [[[R|]|e] w1] eqn:Hget;
      try reflexivity.
    exfalso. apply (Hfail R). reflexivity. }
  destruct Hrun as [Hrun Hworld]. rewrite Hrun, Hworld.
  split; [exact Hfail |]. split; [reflexivity |]. split; [reflexivity |].
  intros w2 R Hfs Hs Hkey Hw. eexists. split.
  - apply (read_through_miss_served w2 meal id R); try assumption.
    unfold cached. rewrite Hfs. exact Hc.
  - cbn [log set_fs add_event]. now rewrite <- app_assoc.
Qed.

Lemma negative_results_not_cached_witness :
  fs (snd (ChefApp.read_through example_payload (world_of offline ∅))) = ∅
  /\ exists w3,
       ChefApp.read_through example_payload
         (world_of example_remote
            (fs (snd (ChefApp.read_through example_payload (world_of offline ∅)))))
       = (Returned (Some example_recipe), w3)
       /\ log w3 = [Fetch (lookup_url (JStr "52772")); Write "images/52772_recipe.json"].
Proof.
  destruct (negative_results_not_cached (world_of offline ∅) example_payload (JStr "52772"))
    as (_ & Hfs & _ & Hretry).
  - reflexivity.
  - reflexivity.
  - intros R. vm_compute. discriminate.
  - split; [exact Hfs |].
    apply (Hretry (world_of example_remote
                     (fs (snd (ChefApp.read_through example_payload (world_of offline ∅)))))
                  example_recipe).
    + reflexivity.
    + apply example_served.
    + reflexivity.
    + reflexivity.
Defined.

Section Hits.

Lemma hit_set_all_recipes w l meal r :
  hit w meal r -> hit (set_all_recipes l w) meal r.
Proof. intros (id & Hid & Hc & Hr). exists id. repeat split; assumption. Qed.

Lemma loop_body_hit w meal r :
  hit w meal r ->
  ChefApp.loop_body meal w = (Returned tt, set_all_recipes (all_recipes w ++ [r]) w).
Proof.
  intros (id & Hid & Hc & Hr). unfold ChefApp.loop_body.
  cbv beta delta [bind] iota. now rewrite (read_through_hit w meal id r Hid Hc Hr).
Qed.

Lemma for_each_hits meals : forall rs w,
  Forall2 (hit w) meals rs ->
  for_each meals ChefApp.loop_body w
  = (Returned tt, set_all_recipes (all_recipes w ++ rs) w).
Proof.
  induction meals as [|meal meals IH]; intros rs w Hall.
  - inversion Hall; subst. rewrite app_nil_r. now destruct w.
  - inversion Hall as [|? r ? rs' Hhit Hrest]; subst.
    cbn [for_each]. cbv beta delta [bind] iota. rewrite (loop_body_hit w meal r Hhit).
    rewrite (IH rs' (set_all_recipes (all_recipes w ++ [r]) w)).
    + cbn [all_recipes set_all_recipes fs remote read_fault write_fault log].
      now rewrite <- app_assoc.
    + eapply Forall2_impl; [exact Hrest |].
      intros m r0 Hm. now apply hit_set_all_recipes.
Qed.

End Hits.

(** C6.  When the cache holds a readable, well-formed record for the
    identifier of a search result, the read-through steps return that
    record and leave the world as it is: no request, no write, the same
    files.  A loop over search results that are all cached appends their
    cached records to the recipe list and changes nothing else. *)
Theorem cache_hit_short_circuits (w : world) (meal : json) (r : Recipe)
    (meals : list json) (rs : list Recipe) :
  hit w meal r ->
  Forall2 (hit w) meals rs ->
  ChefApp.read_through meal w = (Returned (Some r), w)
  /\ ChefApp.loop_body meal w = (Returned tt, set_all_recipes (all_recipes w ++ [r]) w)
  /\ for_each meals ChefApp.loop_body w
     = (Returned tt, set_all_recipes (all_recipes w ++ rs) w)
  /\ log (snd (for_each meals ChefApp.loop_body w)) = log w
  /\ fs (snd (for_each meals ChefApp.loop_body w)) = fs w.
Proof.
  intros Hhit Hall. split; [| split; [| split]].
  - destruct Hhit as (id & Hid & Hc & Hr). now apply (read_through_hit w meal id).
  - now apply loop_body_hit.
  - now apply for_each_hits.
  - rewrite (for_each_hits meals rs w Hall). split; reflexivity.
Qed.

Lemma example_hit :
  hit (world_of offline
         {[ "images/52772_recipe.json" := Doc (ChefApp.data_of_recipe example_recipe) ]})
      example_payload example_recipe.
Proof. exists (JStr "52772"). repeat split; vm_compute; reflexivity. Qed.

Lemma cache_hit_short_circuits_witness :
  let w := world_of offline
             {[ "images/52772_recipe.json" := Doc (ChefApp.data_of_recipe example_recipe) ]} in
  ChefApp.read_through example_payload w = (Returned (Some example_recipe), w)
  /\ for_each [example_payload; example_payload] ChefApp.loop_body w
     = (Returned tt, set_all_recipes [example_recipe; example_recipe] w).
Proof.
  intros w.
  destruct (cache_hit_short_circuits w example_payload example_recipe
              [example_payload; example_payload] [example_recipe; example_recipe])
    as (Hone & _ & Hloop & _).
  - exact example_hit.
  - repeat constructor; exact example_hit.
  - split; [exact Hone | exact Hloop].
Defined.

(** ** The image cache *)

Ltac step :=
  cbn [fst snd remote read_fault write_fault fs log all_recipes
       add_event set_fs set_all_recipes];
  cbv beta iota.

Ltac run_image :=
  cbv beta zeta delta [ChefApp.load_image_cached ChefApp.read_image
                       image_save_jpeg image_open] iota;
  run.

Section Resize.

Variables (im : image) (width height : Z) (w : world).

(** [resize] returns or raises, and leaves the world alone. *)
Lemma image_resize_world : exists o, image_resize im width height w = (o, w).
Proof.
  unfold image_resize. unfold bind at 1.
  destruct ((im_width im =? width)%Z && (im_height im =? height)%Z).
  - cbv beta delta [bind gets ret] iota. destruct (memory_fault w _ _); now eexists.
  - destruct (negb (c_int width && c_int height)); [now eexists |].
    destruct ((width <? 1)%Z || (height <? 1)%Z); [now eexists |].
    cbv beta delta [bind gets ret] iota. destruct (memory_fault w _ _); now eexists.
Qed.



End Resize.

Section ImageCache.

Variables (url id : json).

Let p := ChefApp.image_cache_file id.






End ImageCache.






(** ** Storage locations *)

Section Paths.

Lemma has_slash_cons c s :
  has_slash (String c s) = Ascii.eqb c "/" || has_slash s.
Proof. unfold has_slash. cbn [Py.contains]. now rewrite Ascii.eqb_sym. Qed.

Lemma has_slash_app a b :
  has_slash (a +:+ b) = has_slash a || has_slash b.
Proof.
  induction a as [|c a IH]; [reflexivity |].
  change (String c a +:+ b) with (String c (a +:+ b)).
  rewrite !has_slash_cons, IH. now rewrite orb_assoc.
Qed.

Lemma components_no_slash a :
  has_slash a = false -> components a = [a].
Proof.
  induction a as [|c a IH]; [reflexivity |].
  rewrite has_slash_cons. intros H. apply orb_false_iff in H as [Hc Ha].
  cbn [components]. now rewrite Hc, (IH Ha).
Qed.

Lemma components_app_slash a b :
  has_slash a = false -> components (a +:+ "/" +:+ b) = a :: components b.
Proof.
  induction a as [|c a IH]; [reflexivity |].
  rewrite has_slash_cons. intros H. apply orb_false_iff in H as [Hc Ha].
  change (String c a +:+ "/" +:+ b) with (String c (a +:+ "/" +:+ b)).
  cbn [components]. now rewrite Hc, (IH Ha).
Qed.

Lemma length_app_string a b :
  String.length (a +:+ b) = String.length a + String.length b.
Proof.
  induction a as [|c a IH]; [reflexivity |].
  change (String c a +:+ b) with (String c (a +:+ b)).
  cbn [String.length]. now rewrite IH.
Qed.

(** A name of more than two characters is a plain path component. *)
Lemma descend_plain name :
  2 < String.length name -> descend [name] 0 = Some 1.
Proof.
  destruct name as [|c1 [|c2 [|c3 name]]]; cbn [String.length]; try lia.
  intros _. cbn [descend].
  replace (String.eqb (String c1 (String c2 (String c3 name))) "") with false
    by reflexivity.
  replace (String.eqb (String c1 (String c2 (String c3 name))) ".") with false
    by (cbn; now destruct (Ascii.eqb c1 ".")).
  replace (String.eqb (String c1 (String c2 (String c3 name))) "..") with false
    by (cbn; destruct (Ascii.eqb c1 "."); [destruct (Ascii.eqb c2 ".") |]; reflexivity).
  reflexivity.
Qed.

(** The location of a slash-free name joined to the cache directory. *)
Lemma path_join_plain name :
  has_slash name = false ->
  path_join ChefApp.images_dir name = "images/" +:+ name.
Proof.
  intros H. unfold path_join.
  destruct name as [|c name]; [reflexivity |].
  rewrite has_slash_cons in H. apply orb_false_iff in H as [Hc _].
  destruct (Ascii.eqb_spec c "/") as [-> | Hne]; [discriminate |].
  destruct c as [[] [] [] [] [] [] [] []]; try reflexivity. congruence.
Qed.

Lemma inside_plain name :
  has_slash name = false -> 2 < String.length name ->
  inside_cache_dir (path_join ChefApp.images_dir name) = true.
Proof.
  intros Hs Hl. rewrite (path_join_plain _ Hs). unfold inside_cache_dir.
  change ("images/" +:+ name) with ("images" +:+ "/" +:+ name).
  rewrite components_app_slash by reflexivity.
  rewrite (components_no_slash _ Hs), (descend_plain _ Hl). reflexivity.
Qed.

End Paths.

(** C9 fails as stated: identifiers are not checked.  The identifier
    [../escape] is sent to a file outside the cache directory, and
    [save_recipe_cache] writes there; an identifier that starts with a
    slash replaces the cache directory altogether. *)
Lemma identifier_not_sanitized :
  let recipe := mkRecipe (JStr "../escape") JNull JNull JNull JNull JNull JNull in
  ChefApp.recipe_cache_file (JStr "../escape") = "images/../escape_recipe.json"
  /\ inside_cache_dir (ChefApp.recipe_cache_file (JStr "../escape")) = false
  /\ fs (snd (ChefApp.save_recipe_cache recipe (world_of offline ∅)))
       !! "images/../escape_recipe.json"
     = Some (Doc (ChefApp.data_of_recipe recipe))
  /\ ChefApp.image_cache_file (JStr "/tmp/x") = "/tmp/x.jpg"
  /\ inside_cache_dir (ChefApp.image_cache_file (JStr "/tmp/x")) = false.
Proof.
  intros recipe. repeat split; reflexivity.
Qed.

(** C9, amended.  The identifier is used as it is: the storage locations
    are the cache directory joined with the text of the identifier and
    the suffix.  For an identifier whose text holds no slash, both
    locations are files directly in the cache directory. *)
Theorem identifier_used_verbatim (id : json) :
  has_slash (py_str id) = false ->
  ChefApp.recipe_cache_file id = "images/" +:+ py_str id +:+ "_recipe.json"
  /\ ChefApp.image_cache_file id = "images/" +:+ py_str id +:+ ".jpg"
  /\ inside_cache_dir (ChefApp.recipe_cache_file id) = true
  /\ inside_cache_dir (ChefApp.image_cache_file id) = true.
Proof.
  intros Hs.
  assert (Hr : has_slash (py_str id +:+ "_recipe.json") = false)
    by (rewrite has_slash_app, Hs; reflexivity).
  assert (Hi : has_slash (py_str id +:+ ".jpg") = false)
    by (rewrite has_slash_app, Hs; reflexivity).
  unfold ChefApp.recipe_cache_file, ChefApp.image_cache_file.
  rewrite (path_join_plain _ Hr), (path_join_plain _ Hi).
  split; [reflexivity |]. split; [reflexivity |].
  rewrite <- (path_join_plain _ Hr), <- (path_join_plain _ Hi).
  split; apply inside_plain; try assumption;
    rewrite length_app_string; cbn [String.length]; lia.
Qed.

Lemma identifier_used_verbatim_witness :
  ChefApp.recipe_cache_file (JStr "52772") = "images/52772_recipe.json"
  /\ ChefApp.image_cache_file (JStr "52772") = "images/52772.jpg"
  /\ inside_cache_dir (ChefApp.recipe_cache_file (JStr "52772")) = true
  /\ inside_cache_dir (ChefApp.image_cache_file (JStr "52772")) = true.
Proof.
  apply (identifier_used_verbatim (JStr "52772")). vm_compute. reflexivity.
Defined.

(** * Further properties of the code *)

(** ** The ingredient loop *)

Section StripMore.

Lemma rstrip_idempotent s : Py.rstrip (Py.rstrip s) = Py.rstrip s.
Proof.
  induction s as [|c s IH]; [reflexivity |].
  cbn [Py.rstrip]. destruct (Py.rstrip s) as [|d r] eqn:Hr.
  - destruct (Py.is_space c) eqn:Hc; [reflexivity |].
    cbn [Py.rstrip]. now rewrite Hc.
  - change (Py.rstrip (String c (String d r)))
      with (match Py.rstrip (String d r) with
            | EmptyString => if Py.is_space c then EmptyString else String c EmptyString
            | String a b => String c (String a b)
            end).
    now rewrite IH.
Qed.

Lemma lstrip_visible s :
  (forall c r, s = String c r -> Py.is_space c = false) -> Py.lstrip s = s.
Proof.
  destruct s as [|c r]; [reflexivity |]. intros H. cbn [Py.lstrip].
  now rewrite (H c r eq_refl).
Qed.

Lemma strip_idempotent s : Py.strip (Py.strip s) = Py.strip s.
Proof.
  unfold Py.strip at 1. rewrite lstrip_visible by apply strip_head.
  unfold Py.strip. apply rstrip_idempotent.
Qed.

Lemma strip_empty_rstrip s : Py.strip s = EmptyString -> Py.rstrip s = EmptyString.
Proof.
  unfold Py.strip. induction s as [|c s IH]; [reflexivity |].
  cbn [Py.lstrip]. destruct (Py.is_space c) eqn:Hc.
  - intros H. cbn [Py.rstrip]. now rewrite (IH H), Hc.
  - trivial.
Qed.

Lemma rstrip_app_empty a s :
  Py.rstrip (a +:+ s) = EmptyString -> Py.rstrip s = EmptyString.
Proof.
  induction a as [|c a IH]; [trivial |].
  change (String c a +:+ s) with (String c (a +:+ s)). cbn [Py.rstrip].
  destruct (Py.rstrip (a +:+ s)); [intros _; now apply IH | discriminate].
Qed.

(** Text put in front of an entry cannot make it blank. *)
Lemma strip_app_nonempty a s :
  Py.strip s <> EmptyString -> Py.strip (a +:+ s) <> EmptyString.
Proof.
  intros Hs Has. apply Hs, rstrip_empty_strip.
  apply (rstrip_app_empty a), strip_empty_rstrip, Has.
Qed.

End StripMore.

Section Loop.

(** What one round of the loop can do to the list. *)
Lemma ingredient_step_cases meal acc i :
  ingredient_step meal acc i = Raised AttributeError
  \/ ingredient_step meal acc i = Returned acc
  \/ exists e, ingredient_step meal acc i = Returned (acc ++ [e])
               /\ e <> EmptyString /\ Py.strip e = e.
Proof.
  destruct meal as [| | | | |kvs]; try (left; reflexivity).
  unfold ingredient_step.
  generalize ("strIngredient" +:+ pretty i) ("strMeasure" +:+ pretty i).
  intros ki km. cbn [dict_get obind].
  destruct (default JNull (assoc ki kvs)) as [|b|z|s|l|o];
    cbn [truthy str_strip obind py_str negb].
  - right; left; reflexivity.
  - destruct b; [left | right; left]; reflexivity.
  - destruct (z =? 0)%Z; [right; left | left]; reflexivity.
  - destruct s as [|c s]; [right; left; reflexivity |].
    cbn [Py.is_empty negb].
    destruct (Py.strip (String c s)) eqn:Hs; cbn [Py.is_empty negb];
      [right; left; reflexivity |].
    right; right. eexists. split; [reflexivity |]. split.
    + do 2 apply strip_app_nonempty. rewrite Hs. discriminate.
    + apply strip_idempotent.
  - destruct l; [right; left | left]; reflexivity.
  - destruct o; [right; left | left]; reflexivity.
Qed.

End Loop.

Section LoopInvariants.

Variable meal : json.

Let clean (e : string) : Prop := e <> EmptyString /\ Py.strip e = e.

Lemma for_slots_grows slots : forall acc l,
  for_slots meal slots acc = Returned l ->
  exists new, l = acc ++ new /\ length new <= length slots /\ Forall clean new.
Proof.
  induction slots as [|i rest IH]; intros acc l.
  - cbn [for_slots]. intros [= <-]. exists []. rewrite app_nil_r.
    repeat split; [cbn; lia | constructor].
  - cbn [for_slots].
    destruct (ingredient_step_cases meal acc i) as [-> | [-> | (e & -> & Hne & He)]];
      cbn [obind]; [discriminate | |].
    + intros Hrest. destruct (IH _ _ Hrest) as (new & -> & Hlen & Hall).
      exists new. repeat split; [cbn [length]; lia | exact Hall].
    + intros Hrest. destruct (IH _ _ Hrest) as (new & -> & Hlen & Hall).
      exists (e :: new). rewrite <- app_assoc. repeat split.
      * cbn [length]. lia.
      * constructor; [split; assumption | exact Hall].
Qed.

Lemma for_slots_only_attribute_error slots : forall acc e,
  for_slots meal slots acc = Raised e -> e = AttributeError.
Proof.
  induction slots as [|i rest IH]; intros acc e; cbn [for_slots]; [discriminate |].
  destruct (ingredient_step_cases meal acc i) as [-> | [-> | (x & -> & _)]];
    cbn [obind]; [now intros [= <-] | apply IH | apply IH].
Qed.

End LoopInvariants.

(** X1.  Whatever the payload, a list of ingredients that the loop
    returns has at most 20 entries, and every entry is non-empty text
    without white space at either end. *)
Theorem ingredients_bounded_and_clean (meal : json) (l : list string) :
  extract_ingredients meal = Returned l ->
  length l <= 20
  /\ Forall (fun e => e <> EmptyString /\ Py.strip e = e) l.
Proof.
  unfold extract_ingredients. intros Hrun.
  destruct (for_slots_grows meal (seq 1 20) [] l Hrun) as (new & -> & Hlen & Hall).
  rewrite length_seq in Hlen. split; [exact Hlen | exact Hall].
Qed.

Lemma ingredients_bounded_and_clean_witness :
  length ["1 tsp Salt"; "2 pinch Pepper"] <= 20
  /\ Forall (fun e => e <> EmptyString /\ Py.strip e = e) ["1 tsp Salt"; "2 pinch Pepper"].
Proof.
  apply (ingredients_bounded_and_clean example_meal).
  vm_compute. reflexivity.
Defined.

Section SlotsOnly.

Variables kvs kvs' : list (string * json).

Lemma ingredient_step_slots acc i :
  slot_ingredient kvs i = slot_ingredient kvs' i ->
  slot_measure kvs i = slot_measure kvs' i ->
  ingredient_step (JObj kvs) acc i = ingredient_step (JObj kvs') acc i.
Proof.
  unfold ingredient_step, slot_ingredient, slot_measure.
  generalize ("strIngredient" +:+ pretty i) ("strMeasure" +:+ pretty i).
  intros ki km Hi Hm. cbn [dict_get obind]. now rewrite Hi, Hm.
Qed.

Lemma for_slots_slots slots : forall acc,
  (forall i, In i slots ->
     slot_ingredient kvs i = slot_ingredient kvs' i
     /\ slot_measure kvs i = slot_measure kvs' i) ->
  for_slots (JObj kvs) slots acc = for_slots (JObj kvs') slots acc.
Proof.
  induction slots as [|i rest IH]; intros acc Hagree; [reflexivity |].
  cbn [for_slots].
  destruct (Hagree i (or_introl eq_refl)) as [Hi Hm].
  rewrite (ingredient_step_slots acc i Hi Hm).
  destruct (ingredient_step (JObj kvs') acc i); cbn [obind]; [| reflexivity].
  apply IH. intros j Hj. apply Hagree. now right.
Qed.

End SlotsOnly.

(** X2.  The loop reads the ingredient and the measure of the slots 1 to
    20 and nothing else: two payloads that agree on these fields give the
    same result, whatever other keys they hold (a slot 21, a slot 0). *)
Theorem only_slots_1_to_20_are_read (kvs kvs' : list (string * json)) :
  (forall i, 1 <= i <= 20 ->
     slot_ingredient kvs i = slot_ingredient kvs' i
     /\ slot_measure kvs i = slot_measure kvs' i) ->
  extract_ingredients (JObj kvs) = extract_ingredients (JObj kvs').
Proof.
  intros Hagree. unfold extract_ingredients. apply for_slots_slots.
  intros i Hi. apply in_seq in Hi. apply Hagree. lia.
Qed.

Lemma only_slots_1_to_20_are_read_witness :
  extract_ingredients (JObj [("strIngredient1", JStr "Salt")])
  = extract_ingredients (JObj [("strIngredient21", JStr "Sugar");
                               ("strIngredient1", JStr "Salt");
                               ("strIngredient0", JStr "Oil")]).
Proof.
  apply only_slots_1_to_20_are_read. intros i Hi.
  assert (Hcases : i = 1 \/ i = 2 \/ i = 3 \/ i = 4 \/ i = 5 \/ i = 6 \/ i = 7
                   \/ i = 8 \/ i = 9 \/ i = 10 \/ i = 11 \/ i = 12 \/ i = 13
                   \/ i = 14 \/ i = 15 \/ i = 16 \/ i = 17 \/ i = 18 \/ i = 19
                   \/ i = 20) by lia.
  repeat (destruct Hcases as [-> | Hcases]; [split; vm_compute; reflexivity |]).
  subst i. split; vm_compute; reflexivity.
Defined.

Lemma ingredient_step_not_textual kvs acc i :
  textual kvs i = false ->
  ingredient_step (JObj kvs) acc i = Raised AttributeError.
Proof.
  unfold textual, ingredient_step, slot_ingredient.
  generalize ("strIngredient" +:+ pretty i) ("strMeasure" +:+ pretty i).
  intros ki km. cbn [dict_get obind].
  destruct (default JNull (assoc ki kvs)) as [|b|z|s|l|o];
    cbn [truthy str_strip obind negb]; try discriminate.
  - intros Hb. apply negb_false_iff in Hb. now rewrite Hb.
  - intros Hz. apply negb_false_iff in Hz. now rewrite Hz.
  - destruct l; [discriminate | reflexivity].
  - destruct o; [discriminate | reflexivity].
Qed.

Lemma for_slots_not_textual kvs slots : forall acc,
  Exists (fun i => textual kvs i = false) slots ->
  for_slots (JObj kvs) slots acc = Raised AttributeError.
Proof.
  induction slots as [|i rest IH]; intros acc Hex; [inversion Hex |].
  cbn [for_slots]. destruct (textual kvs i) eqn:Hi.
  - rewrite (ingredient_step_textual kvs acc i Hi). cbn [obind].
    apply IH. inversion Hex; subst; [congruence | assumption].
  - now rewrite (ingredient_step_not_textual kvs acc i Hi).
Qed.

(** X3.  The loop raises [AttributeError] when the payload is not a
    [dict], and when the ingredient of one of the slots 1 to 20 is a
    value that counts as true but is not text (a non-zero number, [True],
    a non-empty container); it raises nothing else. *)
Theorem non_text_ingredient_raises (meal : json) :
  (forall e, extract_ingredients meal = Raised e -> e = AttributeError)
  /\ ((forall kvs, meal <> JObj kvs) -> extract_ingredients meal = Raised AttributeError)
  /\ (forall kvs i, meal = JObj kvs -> 1 <= i <= 20 -> textual kvs i = false ->
        extract_ingredients meal = Raised AttributeError).
Proof.
  split; [| split].
  - intros e. apply for_slots_only_attribute_error.
  - intros Hnot. destruct meal as [| | | | |kvs]; try reflexivity.
    now destruct (Hnot kvs).
  - intros kvs i -> Hi Hbad. unfold extract_ingredients.
    apply for_slots_not_textual. apply Exists_exists. exists i.
    split; [| exact Hbad]. apply list_elem_of_In, in_seq. lia.
Qed.

Lemma non_text_ingredient_raises_witness :
  extract_ingredients (JObj [("strIngredient2", JInt 5)]) = Raised AttributeError
  /\ extract_ingredients (JArr []) = Raised AttributeError.
Proof.
  split.
  - apply (proj2 (proj2 (non_text_ingredient_raises _)) [("strIngredient2", JInt 5)] 2).
    + reflexivity.
    + lia.
    + vm_compute. reflexivity.
  - apply (proj1 (proj2 (non_text_ingredient_raises _))). intros kvs. discriminate.
Defined.

(** ** [MealAPI] *)

Section Api.

Lemma subscript_obj kvs k :
  subscript (JObj kvs) k
  = match assoc k kvs with Some v => Returned v | None => Raised KeyError end.
Proof. reflexivity. Qed.

(** The record built from a payload, field by field. *)
Lemma recipe_of_meal_obj kvs :
  MealAPI.recipe_of_meal (JObj kvs)
  = match extract_ingredients (JObj kvs) with
    | Raised e => Raised e
    | Returned l =>
        match assoc "idMeal" kvs, assoc "strMeal" kvs,
              assoc "strInstructions" kvs, assoc "strMealThumb" kvs with
        | Some i, Some n, Some t, Some p =>
            Returned (mkRecipe i n (default (JStr "Unknown") (assoc "strCategory" kvs))
                               (default (JStr "Unknown") (assoc "strArea" kvs))
                               t p (JArr (map JStr l)))
        | _, _, _, _ => Raised KeyError
        end
    end.
Proof.
  unfold MealAPI.recipe_of_meal.
  destruct (extract_ingredients (JObj kvs)) as [l|e]; [| reflexivity].
  cbn [obind dict_get_default]. rewrite !subscript_obj.
  destruct (assoc "idMeal" kvs); [| reflexivity]. cbn [obind].
  destruct (assoc "strMeal" kvs); [| reflexivity]. cbn [obind].
  destruct (assoc "strInstructions" kvs); [| reflexivity]. cbn [obind].
  destruct (assoc "strMealThumb" kvs); reflexivity.
Qed.

Lemma recipe_of_meal_not_obj meal :
  (forall kvs, meal <> JObj kvs) ->
  MealAPI.recipe_of_meal meal = Raised AttributeError.
Proof.
  intros Hnot. destruct meal as [| | | | |kvs]; try reflexivity.
  now destruct (Hnot kvs).
Qed.

(** The first meal of an answer whose ['meals'] is a non-empty list. *)
Lemma first_recipe_list dkvs meal rest :
  assoc "meals" dkvs = Some (JArr (meal :: rest)) ->
  MealAPI.first_recipe (JObj dkvs)
  = match MealAPI.recipe_of_meal meal with
    | Returned r => Returned (Some r)
    | Raised e => Raised e
    end.
Proof.
  intros Hm. unfold MealAPI.first_recipe. cbn [dict_get]. rewrite subscript_obj, Hm.
  cbn [default obind truthy py_len length Nat.ltb Nat.leb index0].
  now destruct (MealAPI.recipe_of_meal meal).
Qed.


End Api.

(** X4.  A record built from a payload carries the payload's fields as
    they are: [idMeal], [strMeal], [strInstructions] and [strMealThumb]
    must be there; category and area are the text [Unknown] only when
    their key is absent, so a null category stays [None]; the ingredients
    are the list the loop returned. *)
Theorem recipe_fields_from_payload (meal : json) (r : Recipe) :
  MealAPI.recipe_of_meal meal = Returned r ->
  exists kvs l,
    meal = JObj kvs
    /\ assoc "idMeal" kvs = Some (meal_id r)
    /\ assoc "strMeal" kvs = Some (name r)
    /\ category r = default (JStr "Unknown") (assoc "strCategory" kvs)
    /\ area r = default (JStr "Unknown") (assoc "strArea" kvs)
    /\ assoc "strInstructions" kvs = Some (instructions r)
    /\ assoc "strMealThumb" kvs = Some (thumbnail r)
    /\ extract_ingredients meal = Returned l
    /\ ingredients r = JArr (map JStr l).
Proof.
  intros Hrun.
  destruct meal as [| | | | |kvs];
    try (rewrite recipe_of_meal_not_obj in Hrun by (intros ?; discriminate);
         discriminate).
  rewrite recipe_of_meal_obj in Hrun.
  destruct (extract_ingredients (JObj kvs)) as [l|e] eqn:Hl; [| discriminate].
  destruct (assoc "idMeal" kvs) as [i|] eqn:Hi; [| discriminate].
  destruct (assoc "strMeal" kvs) as [n|] eqn:Hn; [| discriminate].
  destruct (assoc "strInstructions" kvs) as [t|] eqn:Ht; [| discriminate].
  destruct (assoc "strMealThumb" kvs) as [p|] eqn:Hp; [| discriminate].
  injection Hrun as <-. exists kvs, l. cbn [meal_id name category area instructions
                                           thumbnail ingredients].
  repeat split; assumption || reflexivity.
Qed.

Lemma recipe_fields_from_payload_witness :
  exists r,
    MealAPI.recipe_of_meal
      (JObj [("idMeal", JStr "1"); ("strMeal", JStr "Soup"); ("strCategory", JNull);
             ("strInstructions", JStr "Boil."); ("strMealThumb", JStr "u")])
    = Returned r
    /\ category r = JNull /\ area r = JStr "Unknown".
Proof.
  eexists. split; [vm_compute; reflexivity |].
  destruct (recipe_fields_from_payload
              (JObj [("idMeal", JStr "1"); ("strMeal", JStr "Soup"); ("strCategory", JNull);
                     ("strInstructions", JStr "Boil."); ("strMealThumb", JStr "u")])
              (mkRecipe (JStr "1") (JStr "Soup") JNull (JStr "Unknown") (JStr "Boil.")
                        (JStr "u") (JArr [])))
    as (kvs & l & Hm & _ & _ & Hc & Ha & _).
  - vm_compute. reflexivity.
  - injection Hm as <-. split; [exact Hc | exact Ha].
Defined.

(** X5.  [get_recipe_details] catches request errors only.  When the
    answer's first meal lacks one of [idMeal], [strMeal],
    [strInstructions], [strMealThumb], the call raises [KeyError] to its
    caller, after the one request it sent; when the first meal has a
    non-text ingredient, it raises [AttributeError]. *)
Theorem malformed_payload_escapes (w : world) (id : json)
    (dkvs kvs : list (string * json)) (rest : list json) :
  remote w (lookup_url id) = Reply true (Doc (JObj dkvs)) ->
  assoc "meals" dkvs = Some (JArr (JObj kvs :: rest)) ->
  ((forall i, 1 <= i <= 20 -> textual kvs i = true) ->
   (exists k, In k ["idMeal"; "strMeal"; "strInstructions"; "strMealThumb"]
              /\ assoc k kvs = None) ->
   MealAPI.get_recipe_details id w
   = (Raised KeyError, add_event (Fetch (lookup_url id)) w))
  /\ ((exists i, 1 <= i <= 20 /\ textual kvs i = false) ->
      MealAPI.get_recipe_details id w
      = (Raised AttributeError, add_event (Fetch (lookup_url id)) w)).
Proof.
  intros Hrem Hmeals.
  rewrite get_recipe_details_spec, Hrem, (first_recipe_list dkvs _ rest Hmeals).
  rewrite recipe_of_meal_obj. split.
  - intros Htext (k & Hk & Hnone).
    unfold extract_ingredients. rewrite for_slots_textual.
    2:{ apply Forall_forall. intros i Hi. apply Htext.
        apply (proj1 (list_elem_of_In _ _)), in_seq in Hi. lia. }
    cbn [In] in Hk.
    destruct Hk as [<- | [<- | [<- | [<- | []]]]]; rewrite Hnone;
      repeat (match goal with
              | |- context [match assoc ?key kvs with _ => _ end] =>
                  destruct (assoc key kvs)
              end); reflexivity.
  - intros (i & Hi & Hbad). unfold extract_ingredients.
    rewrite for_slots_not_textual; [reflexivity |].
    apply Exists_exists. exists i. split; [| exact Hbad].
    apply list_elem_of_In, in_seq. lia.
Qed.

Ltac each_slot :=
  let i := fresh "i" in
  let Hi := fresh "Hi" in
  intros i Hi;
  assert (i = 1 \/ i = 2 \/ i = 3 \/ i = 4 \/ i = 5 \/ i = 6 \/ i = 7
          \/ i = 8 \/ i = 9 \/ i = 10 \/ i = 11 \/ i = 12 \/ i = 13
          \/ i = 14 \/ i = 15 \/ i = 16 \/ i = 17 \/ i = 18 \/ i = 19
          \/ i = 20) as Hcases by lia;
  repeat (destruct Hcases as [-> | Hcases]; [vm_compute; reflexivity |]);
  subst i; vm_compute; reflexivity.

Lemma malformed_payload_escapes_witness :
  MealAPI.get_recipe_details (JStr "1")
    (world_of (json_remote (JObj [("meals", JArr [JObj [("idMeal", JStr "1")]])])) ∅)
  = (Raised KeyError,
     add_event (Fetch (lookup_url (JStr "1")))
       (world_of (json_remote (JObj [("meals", JArr [JObj [("idMeal", JStr "1")]])])) ∅))
  /\ MealAPI.get_recipe_details (JStr "1")
       (world_of (json_remote (JObj [("meals", JArr [JObj [("strIngredient1", JInt 7)]])])) ∅)
     = (Raised AttributeError,
        add_event (Fetch (lookup_url (JStr "1")))
          (world_of (json_remote (JObj [("meals", JArr [JObj [("strIngredient1", JInt 7)]])])) ∅)).
Proof.
  split.
  - apply (proj1 (malformed_payload_escapes
                    (world_of (json_remote (JObj [("meals", JArr [JObj [("idMeal", JStr "1")]])])) ∅)
                    (JStr "1") [("meals", JArr [JObj [("idMeal", JStr "1")]])]
                    [("idMeal", JStr "1")] [] eq_refl eq_refl)).
    + each_slot.
    + exists "strMeal". split; [cbn; tauto | reflexivity].
  - apply (proj2 (malformed_payload_escapes
                    (world_of (json_remote (JObj [("meals", JArr [JObj [("strIngredient1", JInt 7)]])])) ∅)
                    (JStr "1") [("meals", JArr [JObj [("strIngredient1", JInt 7)]])]
                    [("strIngredient1", JInt 7)] [] eq_refl eq_refl)).
    exists 1. split; [lia | vm_compute; reflexivity].
Defined.

Section ApiCalls.

(** [search_by_ingredient] sends one request and touches nothing else. *)
Lemma search_by_ingredient_spec w ingredient :
  MealAPI.search_by_ingredient ingredient w
  = (match remote w (search_url ingredient) with
     | Reply true (Doc (JObj dkvs)) =>
         let meals := default JNull (assoc "meals" dkvs) in
         Returned (Some (if truthy meals then meals else JArr []))
     | Reply true (Doc _) => Raised AttributeError
     | _ => Returned None
     end, add_event (Fetch (search_url ingredient)) w).
Proof.
  unfold MealAPI.search_by_ingredient. fold (search_url ingredient).
  generalize (search_url ingredient). intros url. run. cbn [remote add_event].
  destruct (remote w url) as [|ok body]; [reflexivity |].
  destruct ok; cbn [fst snd]; [| reflexivity].
  destruct body as [data| |]; try reflexivity.
  destruct data as [| | | | |dkvs]; try reflexivity.
  cbn [dict_get subscript].
  destruct (assoc "meals" dkvs) as [m|]; [| reflexivity].
  change (default JNull (Some m)) with m.
  destruct (truthy m); reflexivity.
Qed.

End ApiCalls.





(** ** File names *)

Section Names.

Lemma append_assoc_string a b c : (a +:+ b) +:+ c = a +:+ (b +:+ c).
Proof.
  induction a as [|x a IH]; [reflexivity |].
  change ((String x a +:+ b) +:+ c) with (String x ((a +:+ b) +:+ c)).
  now rewrite IH.
Qed.

Lemma append_right_cancel s : forall a b, a +:+ s = b +:+ s -> a = b.
Proof.
  induction a as [|x a IH]; intros [|y b] H.
  - reflexivity.
  - apply (f_equal String.length) in H. rewrite !length_app_string in H.
    cbn [String.length] in H. lia.
  - apply (f_equal String.length) in H. rewrite !length_app_string in H.
    cbn [String.length] in H. lia.
  - change (String x (a +:+ s) = String y (b +:+ s)) in H.
    injection H as -> H. now rewrite (IH b H).
Qed.

Lemma append_last a : forall b c d,
  a +:+ String c EmptyString = b +:+ String d EmptyString -> c = d.
Proof.
  induction a as [|x a IH]; intros [|y b] c d H.
  - now injection H.
  - injection H as _ H. destruct b; discriminate.
  - injection H as _ H. destruct a; discriminate.
  - injection H as _ H. now apply (IH b).
Qed.

Lemma path_join_images b :
  path_join ChefApp.images_dir b = if absolute b then b else "images/" +:+ b.
Proof.
  destruct b as [|c b]; [reflexivity |]. cbn [absolute].
  destruct (Ascii.eqb_spec c "/") as [-> | Hne]; [reflexivity |].
  unfold path_join.
  destruct c as [[] [] [] [] [] [] [] []]; try reflexivity. congruence.
Qed.

Lemma path_join_images_inj b1 b2 :
  path_join ChefApp.images_dir b1 = path_join ChefApp.images_dir b2 -> b1 = b2.
Proof.
  rewrite !path_join_images.
  destruct (absolute b1) eqn:H1, (absolute b2) eqn:H2; intros H.
  - exact H.
  - subst b1. discriminate.
  - subst b2. discriminate.
  - now apply (String.app_inj "images/").
Qed.

Lemma recipe_cache_file_inj id1 id2 :
  ChefApp.recipe_cache_file id1 = ChefApp.recipe_cache_file id2 <-> py_str id1 = py_str id2.
Proof.
  unfold ChefApp.recipe_cache_file. split.
  - intros H. apply path_join_images_inj in H. now apply append_right_cancel in H.
  - now intros ->.
Qed.

Lemma image_cache_file_inj id1 id2 :
  ChefApp.image_cache_file id1 = ChefApp.image_cache_file id2 <-> py_str id1 = py_str id2.
Proof.
  unfold ChefApp.image_cache_file. split.
  - intros H. apply path_join_images_inj in H. now apply append_right_cancel in H.
  - now intros ->.
Qed.

Lemma recipe_file_not_image_file id1 id2 :
  ChefApp.recipe_cache_file id1 <> ChefApp.image_cache_file id2.
Proof.
  unfold ChefApp.recipe_cache_file, ChefApp.image_cache_file. intros H.
  apply path_join_images_inj in H.
  change "_recipe.json" with ("_recipe.jso" +:+ "n") in H.
  change ".jpg" with (".jp" +:+ "g") in H.
  rewrite <- !append_assoc_string in H.
  apply append_last in H. discriminate.
Qed.

End Names.

(** X8.  For an identifier whose text holds no slash, the record file
    and the image file are entries of the cache directory named after
    the text: each path has two components, the directory and the text
    with its suffix.  Two such identifiers share a record file (an image
    file) exactly when they print the same, as the number 52772 and the
    text ["52772"] do; and a record file is never an image file,
    although both caches use one directory.  Beyond such identifiers a
    file has more than one path: with [./] before the text the path is
    another string and leads to the same entry. *)
Theorem cache_files_by_identifier_text (id1 id2 : json) :
  has_slash (py_str id1) = false ->
  has_slash (py_str id2) = false ->
  components (ChefApp.recipe_cache_file id1) = ["images"; py_str id1 +:+ "_recipe.json"]
  /\ components (ChefApp.image_cache_file id1) = ["images"; py_str id1 +:+ ".jpg"]
  /\ (ChefApp.recipe_cache_file id1 = ChefApp.recipe_cache_file id2
      <-> py_str id1 = py_str id2)
  /\ (ChefApp.image_cache_file id1 = ChefApp.image_cache_file id2
      <-> py_str id1 = py_str id2)
  /\ ChefApp.recipe_cache_file id1 <> ChefApp.image_cache_file id2
  /\ components (ChefApp.recipe_cache_file (JStr ("./" +:+ py_str id1)))
     = ["images"; "."; py_str id1 +:+ "_recipe.json"]
  /\ ChefApp.recipe_cache_file (JStr ("./" +:+ py_str id1))
     <> ChefApp.recipe_cache_file id1.
Proof.
  intros Hs1 Hs2.
  assert (Hr : has_slash (py_str id1 +:+ "_recipe.json") = false)
    by (rewrite has_slash_app, Hs1; reflexivity).
  assert (Hi : has_slash (py_str id1 +:+ ".jpg") = false)
    by (rewrite has_slash_app, Hs1; reflexivity).
  split; [| split; [| split; [| split; [| split; [| split]]]]].
  - unfold ChefApp.recipe_cache_file. rewrite (path_join_plain _ Hr).
    change ("images/" +:+ (py_str id1 +:+ "_recipe.json"))
      with ("images" +:+ "/" +:+ (py_str id1 +:+ "_recipe.json")).
    rewrite components_app_slash by reflexivity.
    now rewrite (components_no_slash _ Hr).
  - unfold ChefApp.image_cache_file. rewrite (path_join_plain _ Hi).
    change ("images/" +:+ (py_str id1 +:+ ".jpg"))
      with ("images" +:+ "/" +:+ (py_str id1 +:+ ".jpg")).
    rewrite components_app_slash by reflexivity.
    now rewrite (components_no_slash _ Hi).
  - apply recipe_cache_file_inj.
  - apply image_cache_file_inj.
  - apply recipe_file_not_image_file.
  - unfold ChefApp.recipe_cache_file. rewrite path_join_images.
    change (py_str (JStr ("./" +:+ py_str id1)) +:+ "_recipe.json")
      with (String "." (String "/" (py_str id1 +:+ "_recipe.json"))).
    change (absolute (String "." _)) with false. cbv iota.
    change ("images/" +:+ String "." (String "/" (py_str id1 +:+ "_recipe.json")))
      with ("images" +:+ "/" +:+ ("." +:+ "/" +:+ (py_str id1 +:+ "_recipe.json"))).
    rewrite !components_app_slash by reflexivity.
    now rewrite (components_no_slash _ Hr).
  - intros H. apply recipe_cache_file_inj in H. cbn [py_str] in H.
    apply (f_equal String.length) in H. rewrite length_app_string in H.
    cbn [String.length] in H. lia.
Qed.

Lemma cache_files_by_identifier_text_witness :
  ChefApp.recipe_cache_file (JInt 52772) = ChefApp.recipe_cache_file (JStr "52772")
  /\ components (ChefApp.recipe_cache_file (JStr "./52772"))
     = ["images"; "."; "52772_recipe.json"].
Proof.
  destruct (cache_files_by_identifier_text (JInt 52772) (JStr "52772"))
    as (_ & _ & H1 & _ & _ & H2 & _).
  - vm_compute. reflexivity.
  - vm_compute. reflexivity.
  - split; [apply H1; vm_compute; reflexivity | exact H2].
Defined.

(** ** Counting requests *)

Section Fetches.

Lemma fetches_add_fetch w u : fetches (add_event (Fetch u) w) = S (fetches w).
Proof.
  unfold fetches. cbn [log add_event]. rewrite List.filter_app, length_app.
  cbn. lia.
Qed.

Lemma fetches_add_write w p : fetches (add_event (Write p) w) = fetches w.
Proof.
  unfold fetches. cbn [log add_event]. rewrite List.filter_app, length_app.
  cbn. lia.
Qed.

Lemma fetches_set_fs f w : fetches (set_fs f w) = fetches w.
Proof. reflexivity. Qed.

Lemma fetches_set_all_recipes l w : fetches (set_all_recipes l w) = fetches w.
Proof. reflexivity. Qed.

Lemma fetches_after_save r w : fetches (after_save r w) = fetches w.
Proof.
  unfold after_save. destruct (write_fault w _);
    rewrite ?fetches_set_fs, ?fetches_add_write; reflexivity.
Qed.

End Fetches.

(** ** More on the record cache *)

(** X9.  A put for one identifier leaves the other identifiers alone:
    among identifiers whose text holds no slash, for an identifier that
    prints differently, the stored record and the result of a lookup are
    the same before and after the put, whether the write succeeds or
    fails; and no image file changes. *)
Theorem put_leaves_other_identifiers (w : world) (r : Recipe) (id : json) :
  has_slash (py_str id) = false ->
  has_slash (py_str (meal_id r)) = false ->
  py_str id <> py_str (meal_id r) ->
  cached (snd (ChefApp.save_recipe_cache r w)) id = cached w id
  /\ fst (ChefApp.load_recipe_cache id (snd (ChefApp.save_recipe_cache r w)))
     = fst (ChefApp.load_recipe_cache id w)
  /\ forall id', fs (snd (ChefApp.save_recipe_cache r w)) !! ChefApp.image_cache_file id'
                 = fs w !! ChefApp.image_cache_file id'.
Proof.
  intros _ _ Hne. rewrite save_recipe_cache_spec. cbn [snd].
  assert (Hp : ChefApp.recipe_cache_file (meal_id r) <> ChefApp.recipe_cache_file id).
  { intros H. apply recipe_cache_file_inj in H. congruence. }
  assert (Hc : cached (after_save r w) id = cached w id).
  { unfold after_save. destruct (write_fault w _); try reflexivity;
      rewrite cached_after_write; now rewrite decide_False. }
  split; [exact Hc |]. split.
  - rewrite !load_recipe_cache_spec. cbn [fst].
    destruct (after_save_frame w r) as (_ & -> & _). now rewrite Hc.
  - intros id'. unfold after_save.
    destruct (write_fault w _); try reflexivity; cbn [fs set_fs add_event];
      apply lookup_insert_ne, recipe_file_not_image_file.
Qed.

Lemma put_leaves_other_identifiers_witness :
  cached (snd (ChefApp.save_recipe_cache example_recipe
                 (world_of offline
                    {[ "images/7_recipe.json" := Doc (ChefApp.data_of_recipe example_recipe) ]})))
         (JStr "7")
  = Some example_recipe.
Proof.
  rewrite (proj1 (put_leaves_other_identifiers
                    (world_of offline
                       {[ "images/7_recipe.json" := Doc (ChefApp.data_of_recipe example_recipe) ]})
                    example_recipe (JStr "7") eq_refl eq_refl
                    ltac:(vm_compute; discriminate))).
  vm_compute. reflexivity.
Defined.

Section ReadThroughMore.

Variables (w : world) (meal id : json) (R : Recipe).

Hypothesis Hid : subscript meal "idMeal" = Returned id.
Hypothesis Hmiss : cached w id = None.
Hypothesis Hserves : serves w id R.

Lemma read_through_miss_any :
  ChefApp.read_through meal w
  = (Returned (Some R), after_save R (add_event (Fetch (lookup_url id)) w)).
Proof.
  rewrite (read_through_unfold w meal id Hid), Hmiss.
  replace (if read_fault w _ then None else None) with (@None Recipe)
    by now destruct (read_fault w _).
  now rewrite (get_recipe_details_served w id R Hserves).
Qed.

End ReadThroughMore.

(** X10.  Caching is best effort.  On a miss answered by the remote
    source, a write that fails does not keep the record from the caller:
    the read-through steps still return it.  The cache then holds no
    record for the identifier, and the next read-through sends the
    request again. *)
Theorem failed_write_still_returns (w : world) (meal id : json) (R : Recipe) :
  subscript meal "idMeal" = Returned id ->
  cached w id = None ->
  serves w id R ->
  py_str (meal_id R) = py_str id ->
  write_fault w (ChefApp.recipe_cache_file id) <> NoFault ->
  let w' := snd (ChefApp.read_through meal w) in
  fst (ChefApp.read_through meal w) = Returned (Some R)
  /\ cached w' id = None
  /\ fst (ChefApp.read_through meal w') = Returned (Some R)
  /\ fetches (snd (ChefApp.read_through meal w')) = fetches w + 2.
Proof.
  intros Hid Hmiss Hs Hkey Hw w'. subst w'.
  rewrite (read_through_miss_any w meal id R Hid Hmiss Hs). cbn [fst snd].
  set (w1 := add_event (Fetch (lookup_url id)) w).
  assert (Hp : ChefApp.recipe_cache_file (meal_id R) = ChefApp.recipe_cache_file id)
    by now apply recipe_cache_file_inj.
  assert (Hmiss' : cached (after_save R w1) id = None).
  { destruct (cached_after_save_failed w1 R id) as [H | H].
    - rewrite Hp. exact Hw.
    - exact H.
    - rewrite H. exact Hmiss. }
  assert (Hs' : serves (after_save R w1) id R).
  { destruct Hs as (data & Hrem & Hrec). exists data. split; [| exact Hrec].
    destruct (after_save_frame w1 R) as (-> & _). exact Hrem. }
  split; [reflexivity |]. split; [exact Hmiss' |].
  rewrite (read_through_miss_any _ meal id R Hid Hmiss' Hs'). cbn [fst snd].
  split; [reflexivity |].
  rewrite fetches_after_save, fetches_add_fetch, fetches_after_save.
  unfold w1. rewrite fetches_add_fetch. lia.
Qed.

Lemma failed_write_still_returns_witness :
  fst (ChefApp.read_through example_payload
         (mkWorld ∅ example_remote (fun _ => false) (fun _ => OpenFails)
                  (fun _ _ => false) [] []))
  = Returned (Some example_recipe).
Proof.
  refine (proj1 (failed_write_still_returns
                   (mkWorld ∅ example_remote (fun _ => false) (fun _ => OpenFails)
                            (fun _ _ => false) [] [])
                   example_payload (JStr "52772") example_recipe _ _ _ _ _)).
  - reflexivity.
  - reflexivity.
  - exists (JObj [("meals", JArr [example_payload])]). split.
    + cbn [remote]. unfold example_remote. now rewrite String.eqb_refl.
    + vm_compute. reflexivity.
  - reflexivity.
  - cbn [write_fault]. discriminate.
Defined.

(** X11.  The cache files a record under the record's own identifier,
    not under the identifier that was looked up.  When the remote source
    answers a lookup with a record whose identifier prints differently
    (both texts without a slash), the record is returned and stored
    under its own name; the identifier that was asked for stays without
    a record. *)
Theorem record_filed_under_its_own_id (w : world) (meal id : json) (R : Recipe) :
  subscript meal "idMeal" = Returned id ->
  cached w id = None ->
  serves w id R ->
  has_slash (py_str id) = false ->
  has_slash (py_str (meal_id R)) = false ->
  py_str (meal_id R) <> py_str id ->
  write_fault w (ChefApp.recipe_cache_file (meal_id R)) = NoFault ->
  let w' := snd (ChefApp.read_through meal w) in
  fst (ChefApp.read_through meal w) = Returned (Some R)
  /\ cached w' (meal_id R) = Some R
  /\ cached w' id = None.
Proof.
  intros Hid Hmiss Hs _ _ Hkey Hw w'. subst w'.
  rewrite (read_through_miss_any w meal id R Hid Hmiss Hs). cbn [fst snd].
  set (w1 := add_event (Fetch (lookup_url id)) w).
  split; [reflexivity |]. split.
  - apply cached_after_save_ok; [exact Hw | reflexivity].
  - rewrite (after_save_ok w1 R Hw), cached_after_write.
    rewrite decide_False; [exact Hmiss |].
    intros H. apply recipe_cache_file_inj in H. congruence.
Qed.

Lemma record_filed_under_its_own_id_witness :
  cached (snd (ChefApp.read_through (JObj [("idMeal", JStr "9")])
                 (world_of (json_remote (JObj [("meals", JArr [example_payload])])) ∅)))
         (JStr "9") = None.
Proof.
  refine (proj2 (proj2 (record_filed_under_its_own_id
            (world_of (json_remote (JObj [("meals", JArr [example_payload])])) ∅)
            (JObj [("idMeal", JStr "9")]) (JStr "9") example_recipe _ _ _ _ _ _ _))).
  - reflexivity.
  - reflexivity.
  - exists (JObj [("meals", JArr [example_payload])]). split; [reflexivity |].
    vm_compute. reflexivity.
  - reflexivity.
  - reflexivity.
  - vm_compute. discriminate.
  - reflexivity.
Defined.

(** ** More on the image cache *)

Section ImageEffects.

Variables (url id : json) (width height : Z) (w : world).

Let p := ChefApp.image_cache_file id.
Let u := py_str url.

(** Every way a call can end: it returns, and the world is as before,
    or has the request, or the request and an opened file, or the request
    and a stored file. *)
Lemma load_image_cached_effect :
  exists o w',
    ChefApp.load_image_cached url id width height w = (Returned o, w')
    /\ (w' = w
        \/ w' = add_event (Fetch u) w
        \/ w' = add_event (Write p) (add_event (Fetch u) w)
        \/ exists c, w' = set_fs (insert p c)
                            (add_event (Write p) (add_event (Fetch u) w))).
Proof.
  run_image. fold p u.
  destruct (fs w !! p) as [c|] eqn:Hf.
  - rewrite bool_decide_eq_true_2 by eauto. cbv beta iota.
    destruct (read_fault w p); [eauto |]. rewrite Hf.
    destruct c as [j|f im|raw]; [eauto | | eauto].
    destruct (image_resize_world im width height w) as [[a|e] ->]; eauto.
  - rewrite bool_decide_eq_false_2 by (intros [? ?]; discriminate). step.
    destruct (remote w u) as [|ok body]; [eauto 6 |]. step.
    destruct body as [j|f im|raw]; [eauto 6 | | eauto 6]. step.
    destruct (write_fault w p); step; [| eauto 6 | eauto 7].
    destruct (jpeg_mode (im_mode im)); step; [| eauto 7].
    match goal with
    | |- context [image_resize im width height ?x] =>
        destruct (image_resize_world im width height x) as [[a|e] ->]; eauto 9
    end.
Qed.

End ImageEffects.

Lemma cached_add_event e w id : cached (add_event e w) id = cached w id.
Proof. reflexivity. Qed.

Lemma cached_image_write w c id id' :
  cached (set_fs (insert (ChefApp.image_cache_file id) c) w) id' = cached w id'.
Proof.
  unfold cached. cbn [fs set_fs]. rewrite lookup_insert_ne; [reflexivity |].
  intros H. symmetry in H. now apply recipe_file_not_image_file in H.
Qed.

(** What every call of [load_image_cached] keeps. *)
Lemma load_image_cached_keeps url id width height w :
  exists o w',
    ChefApp.load_image_cached url id width height w = (Returned o, w')
    /\ (forall id', cached w' id' = cached w id')
    /\ fetches w <= fetches w' <= fetches w + 1
    /\ all_recipes w' = all_recipes w
    /\ remote w' = remote w
    /\ read_fault w' = read_fault w
    /\ write_fault w' = write_fault w.
Proof.
  destruct (load_image_cached_effect url id width height w)
    as (o & w' & Hrun & [-> | [-> | [-> | [c ->]]]]);
    exists o; eexists; (split; [exact Hrun |]);
    (split; [intros id'; rewrite ?cached_image_write, ?cached_add_event; reflexivity |]);
    rewrite ?fetches_set_fs, ?fetches_add_write, ?fetches_add_fetch;
    repeat split; lia.
Qed.

(** X12.  [load_image_cached] never raises: every failure ends in a
    returned [None].  A call sends at most one request, and it never
    touches the record cache, the recipe list or the remote source. *)
Theorem image_loading_is_contained (w : world) (url id : json) (width height : Z) :
  exists o w',
    ChefApp.load_image_cached url id width height w = (Returned o, w')
    /\ (forall id', cached w' id' = cached w id')
    /\ fetches w' <= fetches w + 1
    /\ all_recipes w' = all_recipes w
    /\ remote w' = remote w.
Proof.
  destruct (load_image_cached_keeps url id width height w)
    as (o & w' & Hrun & Hc & Hf & Ha & Hr & _).
  exists o, w'. repeat split; try assumption. lia.
Qed.

(** X13.  A bad file under the image's name is never repaired.  When the
    file is there but is not a decodable image, the call returns [None]
    and leaves the world as it is: no request is sent to fetch the image
    again and the file stays. *)
Theorem corrupt_image_is_never_repaired (w : world) (url id : json)
    (width height : Z) (c : content) :
  fs w !! ChefApp.image_cache_file id = Some c ->
  (forall f im, c <> Picture f im) ->
  ChefApp.load_image_cached url id width height w = (Returned None, w).
Proof.
  intros Hf Hbad. run_image. rewrite Hf.
  rewrite bool_decide_eq_true_2 by eauto. cbv beta iota.
  destruct (read_fault w _); [reflexivity |]. rewrite Hf.
  destruct c as [j|f im|raw]; try reflexivity. now destruct (Hbad f im).
Qed.

Lemma corrupt_image_is_never_repaired_witness :
  ChefApp.load_image_cached (JStr "https://example.org/t.jpg") (JStr "52772") 120 90
    (world_of (picture_remote JPEG) {[ "images/52772.jpg" := Junk "" ]})
  = (Returned None, world_of (picture_remote JPEG) {[ "images/52772.jpg" := Junk "" ]}).
Proof.
  apply (corrupt_image_is_never_repaired _ _ _ _ _ (Junk "")).
  - vm_compute. reflexivity.
  - intros f im. discriminate.
Defined.

(** X14.  A download that fails caches nothing.  On a miss, when the
    remote source gives no response or a body that is not a decodable
    image, the call returns [None]; the request is the only thing that
    happened, no file is written. *)
Theorem failed_download_caches_nothing (w : world) (url id : json) (width height : Z) :
  fs w !! ChefApp.image_cache_file id = None ->
  (forall ok f im, remote w (py_str url) <> Reply ok (Picture f im)) ->
  ChefApp.load_image_cached url id width height w
  = (Returned None, add_event (Fetch (py_str url)) w).
Proof.
  intros Hf Hbad. run_image. rewrite Hf.
  rewrite bool_decide_eq_false_2 by (intros [? ?]; discriminate). step.
  destruct (remote w (py_str url)) as [|ok body]; [reflexivity |]. step.
  destruct body as [j|f im|raw]; try reflexivity. now destruct (Hbad ok f im).
Qed.

Lemma failed_download_caches_nothing_witness :
  ChefApp.load_image_cached (JStr "https://example.org/t.jpg") (JStr "52772") 120 90
    (world_of offline ∅)
  = (Returned None, add_event (Fetch "https://example.org/t.jpg") (world_of offline ∅)).
Proof.
  apply (failed_download_caches_nothing (world_of offline ∅)
           (JStr "https://example.org/t.jpg")).
  - reflexivity.
  - intros ok f im. discriminate.
Defined.

(** X29.  A size that [resize] cannot produce costs the picture, not
    the call.  When the image is in the cache and is asked for in
    another size than its own, with a number below 1 or beyond a C
    [int], or in a size the imaging library finds no memory for,
    [load_image_cached] returns [None] and leaves the world as it is. *)
Theorem unproducible_size_gives_none (w : world) (url id : json)
    (f : image_format) (im : image) (width height : Z) :
  fs w !! ChefApp.image_cache_file id = Some (Picture f im) ->
  read_fault w (ChefApp.image_cache_file id) = false ->
  dims im <> (width, height) ->
  (width < 1 \/ height < 1 \/ 2147483647 < width \/ 2147483647 < height)%Z
  \/ memory_fault w (dims im) (width, height) = true ->
  ChefApp.load_image_cached url id width height w = (Returned None, w).
Proof.
  intros Hf Hr Hdims Hbad. run_image. rewrite Hf.
  rewrite bool_decide_eq_true_2 by eauto. cbv beta iota. rewrite Hr, Hf.
  unfold image_resize. unfold bind at 1.
  destruct ((im_width im =? width)%Z && (im_height im =? height)%Z) eqn:Hsame.
  { apply andb_true_iff in Hsame as [H1 H2]. apply Z.eqb_eq in H1, H2.
    destruct Hdims. unfold dims. now rewrite H1, H2. }
  destruct (negb (c_int width && c_int height)) eqn:Hc; [reflexivity |].
  destruct ((width <? 1)%Z || (height <? 1)%Z) eqn:Hv; [reflexivity |].
  cbv beta delta [bind gets ret] iota.
  destruct Hbad as [Hsize | Hmem].
  - apply negb_false_iff, andb_true_iff in Hc as [Hcw Hch].
    apply orb_false_iff in Hv as [Hvw Hvh]. unfold c_int in *. lia.
  - unfold dims in Hmem. now rewrite Hmem.
Qed.

Lemma unproducible_size_gives_none_witness :
  ChefApp.load_image_cached (JStr "https://example.org/t.jpg") (JStr "52772")
    2147483648 90
    (world_of offline {[ "images/52772.jpg" := Picture JPEG example_picture ]})
  = (Returned None,
     world_of offline {[ "images/52772.jpg" := Picture JPEG example_picture ]}).
Proof.
  apply (unproducible_size_gives_none _ _ _ JPEG example_picture).
  - vm_compute. reflexivity.
  - reflexivity.
  - vm_compute. discriminate.
  - left. lia.
Defined.

(** ** Bounds on what a search does *)

Section Grows.

Lemma grows_refl w : grows 0 0 w w.
Proof.
  repeat split; try lia. exists []. now rewrite app_nil_r.
Qed.

Lemma grows_weaken kf kr kf' kr' w w' :
  kf <= kf' -> kr <= kr' -> grows kf kr w w' -> grows kf' kr' w w'.
Proof.
  intros Hf Hr (H1 & H2 & H3 & H4 & new & Hnew & Hlen).
  repeat split; try assumption; try lia. exists new. split; [assumption | lia].
Qed.

Lemma grows_trans kf1 kr1 kf2 kr2 w1 w2 w3 :
  grows kf1 kr1 w1 w2 -> grows kf2 kr2 w2 w3 -> grows (kf1 + kf2) (kr1 + kr2) w1 w3.
Proof.
  intros (H1 & H2 & H3 & H4 & new1 & Hnew1 & Hlen1)
         (G1 & G2 & G3 & G4 & new2 & Hnew2 & Hlen2).
  repeat split; try congruence; try lia.
  exists (new1 ++ new2). rewrite Hnew2, Hnew1, <- app_assoc, length_app.
  split; [reflexivity | lia].
Qed.

Lemma grows_add_fetch u w : grows 1 0 w (add_event (Fetch u) w).
Proof.
  repeat split; rewrite ?fetches_add_fetch; try lia.
  exists []. cbn [all_recipes add_event]. now rewrite app_nil_r.
Qed.

Lemma grows_after_save r w : grows 0 0 w (after_save r w).
Proof.
  destruct (after_save_frame w r) as (H1 & H2 & H3 & H4).
  repeat split; try assumption; rewrite ?fetches_after_save; try lia.
  exists []. now rewrite H4, app_nil_r.
Qed.

Lemma grows_append r w : grows 0 1 w (set_all_recipes (all_recipes w ++ [r]) w).
Proof.
  repeat split; rewrite ?fetches_set_all_recipes; try lia.
  exists [r]. split; [reflexivity | cbn; lia].
Qed.

(** Sequencing adds the bounds up, also when the first part raises. *)
Lemma bind_grows {A B} (m : M A) (k : A -> M B) kf1 kr1 kf2 kr2 w :
  grows kf1 kr1 w (snd (m w)) ->
  (forall a w1, grows kf2 kr2 w1 (snd (k a w1))) ->
  grows (kf1 + kf2) (kr1 + kr2) w (snd (bind m k w)).
Proof.
  intros Hm Hk. unfold bind. destruct (m w) as [[a|e] w1]; cbn [snd] in *.
  - eapply grows_trans; [exact Hm | apply Hk].
  - eapply grows_weaken; [| | exact Hm]; lia.
Qed.

Lemma lift_grows {A} (x : outcome A) w : grows 0 0 w (snd (lift x w)).
Proof. apply grows_refl. Qed.

Lemma for_each_grows {A} (body : A -> M unit) kf kr :
  (forall x w, grows kf kr w (snd (body x w))) ->
  forall l w, grows (kf * length l) (kr * length l) w (snd (for_each l body w)).
Proof.
  intros Hbody. induction l as [|x l IH]; intros w.
  - cbn [for_each length]. rewrite !Nat.mul_0_r. apply grows_refl.
  - cbn [for_each length].
    eapply grows_weaken; [| | apply (bind_grows (body x) (fun _ => for_each l body)
                                      kf kr (kf * length l) (kr * length l))].
    + lia.
    + lia.
    + apply Hbody.
    + intros _ w1. apply IH.
Qed.

Lemma get_recipe_details_grows id w :
  grows 1 0 w (snd (MealAPI.get_recipe_details id w)).
Proof. rewrite get_recipe_details_spec. apply grows_add_fetch. Qed.


Lemma read_through_grows meal w :
  grows 1 0 w (snd (ChefApp.read_through meal w)).
Proof.
  destruct (subscript meal "idMeal") as [id|e] eqn:Hid.
  - rewrite (read_through_unfold w meal id Hid).
    destruct (if read_fault w _ then None else cached w id) as [r|].
    + cbn [snd]. eapply grows_weaken; [| | apply grows_refl]; lia.
    + pose proof (get_recipe_details_grows id w) as Hg.
      destruct (MealAPI.get_recipe_details id w) as [[[r|]|e] w1]; cbn [snd] in *;
        try exact Hg.
      apply (grows_trans 1 0 0 0 w w1); [exact Hg | apply grows_after_save].
  - unfold ChefApp.read_through. cbv beta delta [bind lift] iota. rewrite Hid.
    cbn [snd]. eapply grows_weaken; [| | apply grows_refl]; lia.
Qed.

Lemma loop_body_grows meal w : grows 1 1 w (snd (ChefApp.loop_body meal w)).
Proof.
  unfold ChefApp.loop_body.
  apply (bind_grows (ChefApp.read_through meal) _ 1 0 0 1).
  - apply read_through_grows.
  - intros [r|] w1; [apply grows_append |].
    eapply grows_weaken; [| | apply grows_refl]; lia.
Qed.

Lemma plain_loop_body_grows meal w : grows 1 1 w (snd (PlainApp.loop_body meal w)).
Proof.
  unfold PlainApp.loop_body.
  apply (bind_grows (lift (subscript meal "idMeal")) _ 0 0 1 1); [apply lift_grows |].
  intros id w1.
  apply (bind_grows (MealAPI.get_recipe_details id) _ 1 0 0 1).
  - apply get_recipe_details_grows.
  - intros [r|] w2; [apply grows_append |].
    eapply grows_weaken; [| | apply grows_refl]; lia.
Qed.

Lemma py_slice_length v n l : py_slice v n = Returned l -> length l <= n.
Proof.
  destruct v; cbn [py_slice]; try discriminate; intros [= <-];
    apply firstn_le_length.
Qed.

End Grows.

Section SearchEdges.



End SearchEdges.

(** ** The filters *)

Section Filters.

Variable g : gui.

Lemma filter_step_labelled current r :
  labelled r = true ->
  ChefUI.filter_step g current r
  = Returned (current ++ (if keeps g r then [r] else [])).
Proof.
  unfold labelled, keeps, ChefUI.filter_step.
  destruct (category r) as [| | |c| |]; try discriminate.
  destruct (name r) as [| | |n| |]; try discriminate.
  intros _. cbn [lower obind]. cbv zeta.
  destruct (filter_chicken g && _); [reflexivity |].
  destruct (filter_beef g && _); [reflexivity |].
  destruct (filter_seafood g && _); [reflexivity |].
  cbn [orb]. now rewrite app_nil_r.
Qed.

Lemma filter_step_not_labelled current r :
  labelled r = false ->
  ChefUI.filter_step g current r = Raised AttributeError.
Proof.
  unfold labelled, ChefUI.filter_step.
  destruct (category r) as [| | |c| |]; try reflexivity.
  destruct (name r) as [| | |n| |]; try reflexivity. discriminate.
Qed.

Lemma filter_loop_labelled all : forall current,
  Forall (fun r => labelled r = true) all ->
  ChefUI.filter_loop g all current
  = Returned (current ++ List.filter (keeps g) all).
Proof.
  induction all as [|r rest IH]; intros current Hall.
  - cbn. now rewrite app_nil_r.
  - inversion Hall as [|? ? Hr Hrest]; subst.
    cbn [ChefUI.filter_loop]. rewrite (filter_step_labelled current r Hr).
    cbn [obind]. rewrite (IH _ Hrest). cbn [List.filter].
    destruct (keeps g r); [now rewrite <- app_assoc | now rewrite app_nil_r].
Qed.

Lemma filter_loop_not_labelled all : forall current,
  Exists (fun r => labelled r = false) all ->
  ChefUI.filter_loop g all current = Raised AttributeError.
Proof.
  induction all as [|r rest IH]; intros current Hex; [inversion Hex |].
  cbn [ChefUI.filter_loop]. destruct (labelled r) eqn:Hr.
  - rewrite (filter_step_labelled current r Hr). cbn [obind].
    apply IH. inversion Hex; subst; [congruence | assumption].
  - now rewrite (filter_step_not_labelled current r Hr).
Qed.

End Filters.

(** X20.  With no filter ticked, [apply_filters] shows every recipe.
    With a filter ticked, and recipes whose category and name are text,
    it shows exactly the recipes that match at least one ticked filter,
    each once, in the order of the recipe list. *)
Theorem filters_select_matching (g : gui) (all : list Recipe) :
  (filtering g = false -> ChefUI.select g all = Returned all)
  /\ (filtering g = true ->
      Forall (fun r => labelled r = true) all ->
      ChefUI.select g all = Returned (List.filter (keeps g) all)).
Proof.
  unfold ChefUI.select, filtering. split.
  - now intros ->.
  - intros -> Hall. cbn [negb]. now rewrite filter_loop_labelled.
Qed.

Lemma filters_select_matching_witness :
  ChefUI.select (mkGui [] true false true [])
    [example_recipe;
     mkRecipe (JStr "2") (JStr "Beef Stew") (JStr "Beef") JNull JNull JNull (JArr []);
     mkRecipe (JStr "3") (JStr "Chicken and PRAWN rice") (JStr "Seafood") JNull JNull JNull (JArr [])]
  = Returned
      [example_recipe;
       mkRecipe (JStr "3") (JStr "Chicken and PRAWN rice") (JStr "Seafood") JNull JNull JNull (JArr [])].
Proof.
  rewrite (proj2 (filters_select_matching (mkGui [] true false true []) _) eq_refl)
    by (repeat constructor).
  vm_compute. reflexivity.
Defined.

Section Drawing.

Lemma create_recipe_card_cardable r w :
  cardable r = true ->
  exists text photo w',
    ChefUI.create_recipe_card r w = (Returned (text, photo), w').
Proof.
  unfold cardable, ChefUI.create_recipe_card. intros H.
  apply andb_true_iff in H as [Hhash Hname]. rewrite Hhash.
  cbv beta delta [bind ret] iota.
  destruct (load_image_cached_keeps (thumbnail r) (meal_id r) 120 90 w)
    as (photo & w' & -> & _).
  destruct (name r) as [| | |s| |]; try discriminate.
  unfold ChefUI.label_text, lift. cbn [py_len obind].
  destruct (18 <? String.length s)%nat; eauto.
Qed.

Lemma display_from_cardable current : forall idx shown w,
  Forall (fun r => cardable r = true) current ->
  exists shown' w',
    ChefUI.display_from idx current shown w = (Returned shown', w')
    /\ length shown' = length shown + length current.
Proof.
  induction current as [|r rest IH]; intros idx shown w Hall.
  - exists shown, w. split; [reflexivity | cbn; lia].
  - inversion Hall as [|? ? Hr Hrest]; subst.
    cbn [ChefUI.display_from]. cbv zeta. unfold bind at 1.
    destruct (create_recipe_card_cardable r w Hr) as (text & photo & w1 & ->).
    destruct (IH (S idx) (shown ++ [mkCard (idx / 5) (idx mod 5) text photo]) w1 Hrest)
      as (shown' & w' & Hrun & Hlen).
    exists shown', w'. split; [exact Hrun |].
    rewrite Hlen, length_app. cbn [length]. lia.
Qed.

End Drawing.

(** X21.  With a filter ticked, a recipe whose category or name is not
    text (a null category from the remote source, say) makes
    [apply_filters] raise [AttributeError] before any card is drawn: the
    world is as it was.  With no filter ticked the categories are not
    looked at: the whole list goes to the cards, and [apply_filters]
    returns with one card for each recipe when every recipe has an
    identifier that can be hashed and a name that is text. *)
Theorem filter_on_null_category_raises (g : gui) (w : world) :
  Exists (fun r => labelled r = false) (all_recipes w) ->
  (filtering g = true -> ChefUI.apply_filters g w = (Raised AttributeError, w))
  /\ (filtering g = false ->
      Forall (fun r => cardable r = true) (all_recipes w) ->
      exists shown w',
        ChefUI.apply_filters g w
        = (Returned (mkGui (all_recipes w) (filter_chicken g) (filter_beef g)
                           (filter_seafood g) shown), w')
        /\ length shown = length (all_recipes w)).
Proof.
  intros Hex. unfold ChefUI.apply_filters. cbv beta delta [bind gets lift] iota.
  destruct (all_recipes w) as [|r rest] eqn:Hall; [inversion Hex |].
  unfold ChefUI.select, filtering. split.
  - intros ->. cbn [negb]. now rewrite (filter_loop_not_labelled g (r :: rest) [] Hex).
  - intros -> Hcards. cbn [negb]. unfold ChefUI.display_recipe_cards.
    destruct (display_from_cardable (r :: rest) 0 [] w Hcards)
      as (shown & w' & -> & Hlen).
    exists shown, w'. split; [reflexivity | exact Hlen].
Qed.

Lemma filter_on_null_category_raises_witness :
  let soup := mkRecipe (JStr "1") (JStr "Soup") JNull (JStr "Unknown") (JStr "Boil.")
                       (JStr "u") (JArr []) in
  let w := set_all_recipes [example_recipe; soup] (world_of offline ∅) in
  ChefUI.apply_filters (mkGui [] false true false []) w = (Raised AttributeError, w)
  /\ exists shown w',
       ChefUI.apply_filters (mkGui [] false false false []) w
       = (Returned (mkGui [example_recipe; soup] false false false shown), w')
       /\ length shown = 2.
Proof.
  intros soup w.
  assert (Hex : Exists (fun r => labelled r = false) (all_recipes w))
    by (apply Exists_cons_tl, Exists_cons_hd; reflexivity).
  split.
  - apply (proj1 (filter_on_null_category_raises (mkGui [] false true false []) w Hex)).
    reflexivity.
  - apply (proj2 (filter_on_null_category_raises (mkGui [] false false false []) w Hex)).
    + reflexivity.
    + repeat constructor.
Defined.

(** ** Cards and columns *)

Section Cards.

Lemma substring_length n : forall s,
  n <= String.length s -> String.length (String.substring 0 n s) = n.
Proof.
  induction n as [|n IH]; intros s Hn.
  - destruct s; reflexivity.
  - destruct s as [|c s]; cbn [String.length] in Hn; [lia |].
    cbn [String.substring String.length]. rewrite IH; [reflexivity | lia].
Qed.

Lemma grid_place_inj k k' : grid_place k = grid_place k' -> k = k'.
Proof.
  unfold grid_place. intros H.
  assert (Hd : k / 5 = k' / 5) by exact (f_equal fst H).
  assert (Hm : k mod 5 = k' mod 5) by exact (f_equal snd H).
  rewrite (Nat.div_mod_eq k 5), (Nat.div_mod_eq k' 5). now rewrite Hd, Hm.
Qed.

Lemma display_from_places current : forall idx shown w shown' w',
  ChefUI.display_from idx current shown w = (Returned shown', w') ->
  map (fun c => (card_row c, card_col c)) shown'
  = map (fun c => (card_row c, card_col c)) shown
    ++ map grid_place (seq idx (length current)).
Proof.
  induction current as [|recipe rest IH]; intros idx shown w shown' w'.
  - cbn. intros [= <- _]. now rewrite app_nil_r.
  - cbn [ChefUI.display_from length seq map]. cbv zeta. unfold bind at 1.
    destruct (ChefUI.create_recipe_card recipe w) as [[c|e] w1]; [| discriminate].
    intros Hrest. apply IH in Hrest. rewrite Hrest, map_app. cbn [map].
    rewrite <- app_assoc. reflexivity.
Qed.

Lemma chars_length s : length (chars s) = String.length s.
Proof. induction s as [|c s IH]; [reflexivity |]. cbn. now rewrite IH. Qed.

Lemma py_len_iter v n :
  py_len v = Returned n ->
  exists items, py_iter v = Returned items /\ length items = n.
Proof.
  destruct v as [| | |s|l|kvs]; cbn [py_len py_iter]; try discriminate;
    intros [= <-]; eexists; (split; [reflexivity |]).
  - apply chars_length.
  - reflexivity.
  - apply length_map.
Qed.

Lemma columns_from_spec items : forall i mid col1 col2,
  ChefUI.columns_from i mid items col1 col2
  = (col1 ++ firstn (mid - i) items, col2 ++ skipn (mid - i) items).
Proof.
  induction items as [|x rest IH]; intros i mid col1 col2.
  - cbn [ChefUI.columns_from]. rewrite firstn_nil, skipn_nil, !app_nil_r. reflexivity.
  - cbn [ChefUI.columns_from]. destruct (Nat.ltb_spec i mid) as [Hlt | Hge].
    + rewrite IH. replace (mid - i) with (S (mid - S i)) by lia.
      cbn [firstn skipn]. now rewrite <- app_assoc.
    + rewrite IH. replace (mid - S i) with 0 by lia.
      replace (mid - i) with 0 by lia.
      rewrite <- app_assoc. reflexivity.
Qed.

End Cards.

(** X22.  The label of a card is short.  For a name that is text the
    label is the name itself when it has at most 18 characters, and
    otherwise its first 18 characters followed by three dots, 21
    characters in all; a name without a length ([None], a number) makes
    the card fail with [TypeError]. *)
Theorem card_label_is_short (name : json) :
  (forall s, name = JStr s ->
     exists t, ChefUI.label_text name = Returned (JStr t)
               /\ String.length t <= 21
               /\ (String.length s <= 18 -> t = s)
               /\ (18 < String.length s ->
                   t = String.substring 0 18 s +:+ "..." /\ String.length t = 21))
  /\ (py_len name = Raised TypeError -> ChefUI.label_text name = Raised TypeError).
Proof.
  split.
  - intros s ->. unfold ChefUI.label_text. cbn [py_len obind].
    destruct (Nat.ltb_spec 18 (String.length s)) as [Hlong | Hshort].
    + eexists. split; [reflexivity |].
      rewrite length_app_string, substring_length by lia. cbn [String.length].
      repeat split; try lia.
    + exists s. repeat split; try lia.
  - intros Hlen. unfold ChefUI.label_text. now rewrite Hlen.
Qed.

Lemma card_label_is_short_witness :
  ChefUI.label_text (JStr "Chicken Enchilada Casserole")
  = Returned (JStr "Chicken Enchilada ...")
  /\ ChefUI.label_text JNull = Raised TypeError.
Proof.
  split.
  - destruct (proj1 (card_label_is_short (JStr "Chicken Enchilada Casserole"))
                _ eq_refl) as (t & Hrun & _ & _ & Hlong).
    rewrite Hrun. destruct Hlong as [-> _]; [cbn; lia | reflexivity].
  - apply (proj2 (card_label_is_short JNull)). reflexivity.
Defined.

(** X23.  The cards are laid out five to a row in the order of the list:
    when [display_recipe_cards] returns, there is one card per recipe,
    the card with index [k] is in row [k / 5] and column [k mod 5], no
    column is beyond the fifth and no two cards share a place. *)
Theorem cards_fill_a_grid_of_five (current : list Recipe) (w w' : world)
    (shown : list card) :
  ChefUI.display_recipe_cards current w = (Returned shown, w') ->
  map (fun c => (card_row c, card_col c)) shown
  = map grid_place (seq 0 (length current))
  /\ length shown = length current
  /\ Forall (fun c => card_col c < 5) shown
  /\ NoDup (map (fun c => (card_row c, card_col c)) shown).
Proof.
  intros Hrun. apply display_from_places in Hrun. cbn [map app] in Hrun.
  split; [exact Hrun |]. split; [| split].
  - apply (f_equal (@length _)) in Hrun. rewrite !length_map, length_seq in Hrun.
    exact Hrun.
  - apply Forall_forall. intros c Hc.
    assert (Hin : (card_row c, card_col c)
                  ∈ map grid_place (seq 0 (length current))).
    { rewrite <- Hrun. apply (list_elem_of_fmap_2 (fun c => (card_row c, card_col c))), Hc. }
    apply list_elem_of_fmap in Hin as (k & Hk & _).
    replace (card_col c) with (k mod 5) by exact (eq_sym (f_equal snd Hk)).
    apply Nat.mod_upper_bound. lia.
  - rewrite Hrun.
    assert (Hinj : Inj (=) (=) grid_place) by (intros k k'; apply grid_place_inj).
    apply (@NoDup_fmap_2 _ _ grid_place Hinj), NoDup_seq.
Qed.

Lemma cards_fill_a_grid_of_five_witness :
  let run := ChefUI.display_recipe_cards (repeat example_recipe 7) (world_of offline ∅) in
  match fst run with
  | Returned shown =>
      map (fun c => (card_row c, card_col c)) shown
      = [(0, 0); (0, 1); (0, 2); (0, 3); (0, 4); (1, 0); (1, 1)]
  | Raised _ => False
  end.
Proof.
  intros run. destruct (fst run) as [shown|e] eqn:Hrun.
  - apply (proj1 (cards_fill_a_grid_of_five (repeat example_recipe 7)
                    (world_of offline ∅) (snd run) shown
                    ltac:(rewrite <- Hrun; apply surjective_pairing))).
  - vm_compute in Hrun. discriminate.
Defined.

(** X24.  The detail view deals the ingredients to two columns in order:
    when [show_recipe_detail] returns, the first column holds the first
    half of the items (rounded down) and the second column the rest, so
    the columns together are the list and the second is as long as the
    first or longer by one. *)
Theorem detail_columns_split_the_list (recipe : Recipe) (w w' : world) (d : detail) :
  ChefUI.show_recipe_detail recipe w = (Returned d, w') ->
  exists items,
    py_iter (ingredients recipe) = Returned items
    /\ column1 d = firstn (length items / 2) items
    /\ column2 d = skipn (length items / 2) items
    /\ column1 d ++ column2 d = items
    /\ length (column1 d) <= length (column2 d) <= length (column1 d) + 1.
Proof.
  unfold ChefUI.show_recipe_detail. unfold bind at 1.
  destruct (load_image_cached_keeps (thumbnail recipe) (meal_id recipe) 150 150 w)
    as (photo & w1 & -> & _).
  cbv beta delta [bind lift ret] iota.
  destruct (py_len (ingredients recipe)) as [n|e] eqn:Hlen; [| discriminate].
  destruct (py_len_iter _ _ Hlen) as (items & Hiter & Hn). rewrite Hiter.
  subst n. set (mid := length items / 2).
  rewrite columns_from_spec, Nat.sub_0_r. cbn [fst snd app].
  intros [= <- _]. cbn [column1 column2]. exists items.
  split; [reflexivity |]. split; [reflexivity |]. split; [reflexivity |].
  split; [apply firstn_skipn |].
  rewrite length_firstn, length_skipn. subst mid.
  pose proof (Nat.div_mod_eq (length items) 2) as Hdm.
  pose proof (Nat.mod_upper_bound (length items) 2 ltac:(lia)) as Hm.
  lia.
Qed.

Lemma detail_columns_split_the_list_witness :
  let run := ChefUI.show_recipe_detail
               (mkRecipe (JStr "1") JNull JNull JNull JNull JNull
                         (JArr [JStr "a"; JStr "b"; JStr "c"]))
               (world_of offline ∅) in
  match fst run with
  | Returned d => column1 d = [JStr "a"] /\ column2 d = [JStr "b"; JStr "c"]
  | Raised _ => False
  end.
Proof.
  intros run. destruct (fst run) as [d|e] eqn:Hrun.
  - destruct (detail_columns_split_the_list _ (world_of offline ∅) (snd run) d
                ltac:(rewrite <- Hrun; apply surjective_pairing))
      as (items & Hiter & H1 & H2 & _).
    injection Hiter as <-. split; [exact H1 | exact H2].
  - vm_compute in Hrun. discriminate.
Defined.

(** ** What the views do to the world *)

Section OnlyImages.

Lemma only_images_refl w : only_images 0 w w.
Proof. repeat split; try lia. Qed.

Lemma only_images_weaken kf kf' w w' :
  kf <= kf' -> only_images kf w w' -> only_images kf' w w'.
Proof. intros Hk (H1 & H2 & H3 & H4). repeat split; try assumption; lia. Qed.

Lemma only_images_trans kf1 kf2 w1 w2 w3 :
  only_images kf1 w1 w2 -> only_images kf2 w2 w3 -> only_images (kf1 + kf2) w1 w3.
Proof.
  intros (H1 & H2 & H3 & H4) (G1 & G2 & G3 & G4).
  split; [intros id; now rewrite G1 |]. repeat split; try congruence; lia.
Qed.

Lemma bind_only_images {A B} (m : M A) (k : A -> M B) kf1 kf2 w :
  only_images kf1 w (snd (m w)) ->
  (forall a w1, only_images kf2 w1 (snd (k a w1))) ->
  only_images (kf1 + kf2) w (snd (bind m k w)).
Proof.
  intros Hm Hk. unfold bind. destruct (m w) as [[a|e] w1]; cbn [snd] in *.
  - eapply only_images_trans; [exact Hm | apply Hk].
  - eapply only_images_weaken; [| exact Hm]. lia.
Qed.


Lemma load_image_cached_only_images url id width height w :
  only_images 1 w (snd (ChefApp.load_image_cached url id width height w)).
Proof.
  destruct (load_image_cached_keeps url id width height w)
    as (o & w' & -> & Hc & Hf & Ha & Hr & _).
  cbn [snd]. repeat split; try assumption; lia.
Qed.



Lemma create_recipe_card_only_images recipe w :
  only_images 1 w (snd (ChefUI.create_recipe_card recipe w)).
Proof.
  unfold ChefUI.create_recipe_card.
  apply (bind_only_images _ _ 0 1).
  - destruct (hashable (meal_id recipe)); apply only_images_refl.
  - intros _ w1. apply (bind_only_images _ _ 1 0);
      [apply load_image_cached_only_images |].
    intros photo w2. cbv beta delta [bind lift ret] iota.
    destruct (ChefUI.label_text (name recipe)); apply only_images_refl.
Qed.

Lemma display_from_only_images current : forall idx shown w,
  only_images (length current) w (snd (ChefUI.display_from idx current shown w)).
Proof.
  induction current as [|recipe rest IH]; intros idx shown w.
  - apply only_images_refl.
  - cbn [ChefUI.display_from length]. cbv zeta.
    apply (bind_only_images _ _ 1 (length rest));
      [apply create_recipe_card_only_images |].
    intros c w1. apply IH.
Qed.

Lemma filter_loop_length g all : forall current l,
  ChefUI.filter_loop g all current = Returned l ->
  length l <= length current + length all.
Proof.
  induction all as [|r rest IH]; intros current l.
  - cbn. intros [= <-]. lia.
  - cbn [ChefUI.filter_loop length]. destruct (labelled r) eqn:Hr.
    + rewrite (filter_step_labelled g current r Hr). cbn [obind].
      intros H. apply IH in H. rewrite length_app in H.
      destruct (keeps g r); cbn [length] in H; lia.
    + rewrite (filter_step_not_labelled g current r Hr). discriminate.
Qed.

Lemma select_length g all l :
  ChefUI.select g all = Returned l -> length l <= length all.
Proof.
  unfold ChefUI.select. destruct (negb _).
  - now intros [= <-].
  - intros H. apply filter_loop_length in H. cbn [length] in H. lia.
Qed.

Lemma apply_filters_only_images g w :
  only_images (length (all_recipes w)) w (snd (ChefUI.apply_filters g w)).
Proof.
  unfold ChefUI.apply_filters. cbv beta delta [bind gets] iota.
  destruct (all_recipes w) as [|r rest] eqn:Hall; [apply only_images_refl |].
  cbv beta delta [lift] iota.
  destruct (ChefUI.select g (r :: rest)) as [current|e] eqn:Hsel;
    [| eapply only_images_weaken; [| apply only_images_refl]; lia].
  apply select_length in Hsel.
  pose proof (display_from_only_images current 0 [] w) as Hd.
  unfold ChefUI.display_recipe_cards.
  destruct (ChefUI.display_from 0 current [] w) as [[shown|e] w1];
    cbn [snd] in *; (eapply only_images_weaken; [| exact Hd]); exact Hsel.
Qed.

(** What [apply_filters] returns: the display as it was, or a selection
    of the recipe list with one card for each recipe of it. *)
Lemma apply_filters_returned g w g' w' :
  ChefUI.apply_filters g w = (Returned g', w') ->
  g' = g
  \/ (length (current_recipes g') <= length (all_recipes w)
      /\ length (cards g') = length (current_recipes g')).
Proof.
  unfold ChefUI.apply_filters. cbv beta delta [bind gets lift] iota.
  destruct (all_recipes w) as [|r rest] eqn:Hall; [intros [= <- _]; now left |].
  destruct (ChefUI.select g (r :: rest)) as [current|e] eqn:Hsel; [| discriminate].
  apply select_length in Hsel. unfold ChefUI.display_recipe_cards.
  destruct (ChefUI.display_from 0 current [] w) as [[shown|e] w1] eqn:Hrun;
    [| discriminate].
  intros [= <- _]. right. cbn [current_recipes cards]. split; [exact Hsel |].
  apply display_from_places in Hrun. apply (f_equal (@length _)) in Hrun.
  rewrite length_app, !length_map, length_seq in Hrun. exact Hrun.
Qed.

End OnlyImages.



(** X26.  [apply_filters] only shows: however it ends, the record cache,
    the recipe list and the remote source are as before, and it sends at
    most one request per recipe of the list, for the pictures.  With an
    empty recipe list it returns at once and nothing is redrawn, so the
    cards and the recipes on display stay as they were. *)
Theorem apply_filters_only_shows (g : gui) (w : world) :
  only_images (length (all_recipes w)) w (snd (ChefUI.apply_filters g w))
  /\ (all_recipes w = [] -> ChefUI.apply_filters g w = (Returned g, w)).
Proof.
  split.
  - apply apply_filters_only_images.
  - intros Hall. unfold ChefUI.apply_filters. cbv beta delta [bind gets] iota.
    now rewrite Hall.
Qed.

Lemma apply_filters_only_shows_witness :
  ChefUI.apply_filters (mkGui [example_recipe] true false false []) (world_of offline ∅)
  = (Returned (mkGui [example_recipe] true false false []), world_of offline ∅).
Proof.
  apply (proj2 (apply_filters_only_shows _ (world_of offline ∅))). reflexivity.
Defined.


(** ** The searches *)

Section Gather.

(** [search_recipes] is the search and the loop, and then, when these
    got that far, [apply_filters]. *)
Lemma search_recipes_gather g ingredient w :
  ChefUI.search_recipes g ingredient w
  = bind (gather ChefApp.loop_body ingredient)
         (fun go => if go then ChefUI.apply_filters g else ret g) w.
Proof.
  unfold ChefUI.search_recipes, gather. cbv beta delta [bind] iota.
  destruct (MealAPI.search_by_ingredient ingredient w) as [[[results|]|e] w1];
    try reflexivity.
  cbv beta delta [lift ret modify] iota.
  destruct (py_len results) as [n|e]; [| reflexivity].
  destruct (n =? 0)%nat; [reflexivity |].
  destruct (py_slice results 10) as [meals|e]; [| reflexivity].
  destruct (for_each meals ChefApp.loop_body (set_all_recipes [] w1)) as [[[]|e] w2];
    reflexivity.
Qed.

Lemma plain_search_recipes_gather g ingredient w :
  PlainApp.search_recipes g ingredient w
  = bind (gather PlainApp.loop_body ingredient)
         (fun go => if go then PlainApp.apply_filters g else ret g) w.
Proof.
  unfold PlainApp.search_recipes, gather. cbv beta delta [bind] iota.
  destruct (MealAPI.search_by_ingredient ingredient w) as [[[results|]|e] w1];
    try reflexivity.
  cbv beta delta [lift ret modify] iota.
  destruct (py_len results) as [n|e]; [| reflexivity].
  destruct (n =? 0)%nat; [reflexivity |].
  destruct (py_slice results 10) as [meals|e]; [| reflexivity].
  destruct (for_each meals PlainApp.loop_body (set_all_recipes [] w1)) as [[[]|e] w2];
    reflexivity.
Qed.


(** The search and the loop send at most 11 requests; they leave the
    recipe list as it was, and then [apply_filters] is not reached, or
    they leave a list of at most ten recipes. *)
Lemma gather_bounds body ingredient w o w' :
  (forall x w, grows 1 1 w (snd (body x w))) ->
  gather body ingredient w = (o, w') ->
  remote w' = remote w
  /\ fetches w' <= fetches w + 11
  /\ (length (all_recipes w') <= 10
      \/ (all_recipes w' = all_recipes w /\ o <> Returned true)).
Proof.
  intros Hbody Hrun. unfold gather in Hrun. unfold bind at 1 in Hrun.
  rewrite search_by_ingredient_spec in Hrun.
  set (w1 := add_event (Fetch (search_url ingredient)) w) in Hrun.
  assert (Hf : fetches w1 = S (fetches w)) by apply fetches_add_fetch.
  assert (Hearly : forall o0 : outcome bool, o0 <> Returned true ->
            remote w1 = remote w
            /\ fetches w1 <= fetches w + 11
            /\ (length (all_recipes w1) <= 10
                \/ (all_recipes w1 = all_recipes w /\ o0 <> Returned true))).
  { intros o0 Ho. split; [reflexivity |]. split; [lia |]. right. now split. }
  destruct (match remote w (search_url ingredient) with
            | Reply true (Doc (JObj dkvs)) => _
            | _ => _
            end) as [[results|]|e];
    [| injection Hrun as <- <-; now apply Hearly
     | injection Hrun as <- <-; now apply Hearly].
  cbv beta delta [bind lift ret modify] iota in Hrun.
  destruct (py_len results) as [n|e];
    [| injection Hrun as <- <-; now apply Hearly].
  destruct (n =? 0)%nat; [injection Hrun as <- <-; now apply Hearly |].
  destruct (py_slice results 10) as [meals|e] eqn:Hs.
  2:{ injection Hrun as <- <-. split; [reflexivity |].
      split; [rewrite fetches_set_all_recipes; lia | left; cbn; lia]. }
  apply py_slice_length in Hs.
  destruct (for_each_grows body 1 1 Hbody meals (set_all_recipes [] w1))
    as (H1 & _ & _ & H4 & new & Hnew & Hlen).
  rewrite fetches_set_all_recipes in H4.
  destruct (for_each meals body (set_all_recipes [] w1)) as [[[]|e] w2];
    cbn [fst snd] in *; injection Hrun as <- <-;
    (split; [exact H1 |]; split; [lia |]; left; rewrite Hnew;
     cbn [all_recipes set_all_recipes app]; lia).
Qed.



End Gather.



(** X16.  [search_recipes] is bounded, however it ends: it sends at most
    21 requests (the search, one lookup for each of the first ten
    results, one picture for each card), never changes the remote
    source, and leaves the recipe list either as it was or with at most
    ten recipes.  When it returns, the display is as it was or shows at
    most ten recipes, one card each. *)
Theorem search_is_bounded (g : gui) (w : world) (ingredient : string) :
  let w' := snd (ChefUI.search_recipes g ingredient w) in
  remote w' = remote w
  /\ fetches w' <= fetches w + 21
  /\ (all_recipes w' = all_recipes w \/ length (all_recipes w') <= 10)
  /\ forall g', fst (ChefUI.search_recipes g ingredient w) = Returned g' ->
       g' = g
       \/ (length (current_recipes g') <= 10
           /\ length (cards g') = length (current_recipes g')).
Proof.
  intros w'. subst w'. rewrite search_recipes_gather. unfold bind.
  destruct (gather ChefApp.loop_body ingredient w) as [o w1] eqn:Hrun.
  destruct (gather_bounds ChefApp.loop_body ingredient w o w1 loop_body_grows Hrun)
    as (H1 & H2 & H3).
  destruct o as [[]|e]; cbn [fst snd] in *.
  - destruct H3 as [H3 | [_ H3]]; [| congruence].
    destruct (apply_filters_only_images g w1) as (_ & G2 & G3 & G4).
    split; [congruence |]. split; [lia |]. split; [right; now rewrite G2 |].
    intros g' Hshow.
    destruct (apply_filters_returned g w1 g' (snd (ChefUI.apply_filters g w1)))
      as [Hg | [Hlen Hcards]].
    + rewrite <- Hshow. apply surjective_pairing.
    + now left.
    + right. split; [lia | exact Hcards].
  - unfold ret. cbn [fst snd]. split; [exact H1 |]. split; [lia |]. split.
    + destruct H3 as [H3 | [H3 _]]; [now right | now left].
    + intros g' [= <-]. now left.
  - split; [exact H1 |]. split; [lia |]. split.
    + destruct H3 as [H3 | [H3 _]]; [now right | now left].
    + intros g'. discriminate.
Qed.

Section ViewAll.





End ViewAll.



(** ** The application without cache *)

Section Untouched.

Lemma disk_untouched_refl w : disk_untouched w w.
Proof. split; [reflexivity |]. exists []. now rewrite app_nil_r. Qed.

Lemma disk_untouched_trans w1 w2 w3 :
  disk_untouched w1 w2 -> disk_untouched w2 w3 -> disk_untouched w1 w3.
Proof.
  intros (H1 & l1 & Hl1 & Hf1) (H2 & l2 & Hl2 & Hf2). split; [congruence |].
  exists (l1 ++ l2). rewrite Hl2, Hl1, <- app_assoc. split; [reflexivity |].
  now apply Forall_app.
Qed.

Lemma disk_untouched_fetch u w : disk_untouched w (add_event (Fetch u) w).
Proof. split; [reflexivity |]. exists [Fetch u]. split; [reflexivity | now repeat constructor]. Qed.

Lemma disk_untouched_recipes l w : disk_untouched w (set_all_recipes l w).
Proof. split; [reflexivity |]. exists []. cbn [log set_all_recipes]. now rewrite app_nil_r. Qed.

Lemma bind_untouched {A B} (m : M A) (k : A -> M B) w :
  disk_untouched w (snd (m w)) ->
  (forall a w1, disk_untouched w1 (snd (k a w1))) ->
  disk_untouched w (snd (bind m k w)).
Proof.
  intros Hm Hk. unfold bind. destruct (m w) as [[a|e] w1]; cbn [snd] in *.
  - eapply disk_untouched_trans; [exact Hm | apply Hk].
  - exact Hm.
Qed.

Lemma for_each_untouched {A} (body : A -> M unit) :
  (forall x w, disk_untouched w (snd (body x w))) ->
  forall l w, disk_untouched w (snd (for_each l body w)).
Proof.
  intros Hbody. induction l as [|x l IH]; intros w; [apply disk_untouched_refl |].
  cbn [for_each]. apply bind_untouched; [apply Hbody | intros _ w1; apply IH].
Qed.

Lemma plain_loop_body_untouched meal w :
  disk_untouched w (snd (PlainApp.loop_body meal w)).
Proof.
  unfold PlainApp.loop_body.
  apply bind_untouched; [apply disk_untouched_refl |]. intros id w1.
  apply bind_untouched.
  - rewrite get_recipe_details_spec. apply disk_untouched_fetch.
  - intros [r|] w2; [apply disk_untouched_recipes | apply disk_untouched_refl].
Qed.

(** The picture of a card: one request, whatever comes of it. *)
Lemma plain_photo url w :
  exists o,
    try_except any_exception
      (response <- requests_get url;;
       img_data <- image_open (Some (snd response));;
       img_data <- image_resize img_data 120 90;;
       ret (Some img_data))%M
      (ret None) w
    = (Returned o, add_event (Fetch url) w).
Proof.
  cbv beta zeta delta [image_open] iota. run. cbn [remote add_event].
  destruct (remote w url) as [|ok body]; [now eexists |]. cbn [fst snd].
  destruct body as [j|f im|raw]; [now eexists | | now eexists].
  destruct (image_resize_world im 120 90 (add_event (Fetch url) w)) as [[a|e] ->];
    now eexists.
Qed.

(** A card either fails on its identifier before anything happens, or
    sends its request and ends as its label ends. *)
Lemma plain_create_recipe_card_effect r w :
  (hashable (meal_id r) = false
   /\ PlainApp.create_recipe_card r w = (Raised TypeError, w))
  \/ (hashable (meal_id r) = true
      /\ exists photo,
           PlainApp.create_recipe_card r w
           = ((text <~ ChefUI.label_text (name r); Returned (text, photo))%out,
              add_event (Fetch (py_str (thumbnail r))) w)).
Proof.
  unfold PlainApp.create_recipe_card.
  destruct (hashable (meal_id r)); [right | left; split; reflexivity].
  split; [reflexivity |]. unfold bind at 1. unfold ret at 1. unfold bind at 1.
  destruct (plain_photo (py_str (thumbnail r)) w) as [photo ->].
  exists photo. cbv beta delta [bind lift ret] iota.
  destruct (ChefUI.label_text (name r)); reflexivity.
Qed.

Lemma plain_create_recipe_card_untouched r w :
  disk_untouched w (snd (PlainApp.create_recipe_card r w))
  /\ grows 1 0 w (snd (PlainApp.create_recipe_card r w)).
Proof.
  destruct (plain_create_recipe_card_effect r w) as [[_ ->] | [_ [photo ->]]];
    cbn [snd].
  - split; [apply disk_untouched_refl |].
    eapply grows_weaken; [| | apply grows_refl]; lia.
  - split; [apply disk_untouched_fetch | apply grows_add_fetch].
Qed.

Lemma plain_display_from_untouched current : forall idx shown w,
  disk_untouched w (snd (PlainApp.display_from idx current shown w))
  /\ grows (length current) 0 w (snd (PlainApp.display_from idx current shown w)).
Proof.
  induction current as [|r rest IH]; intros idx shown w.
  - split; [apply disk_untouched_refl | apply grows_refl].
  - cbn [PlainApp.display_from length]. cbv zeta. split.
    + apply bind_untouched; [apply plain_create_recipe_card_untouched |].
      intros c w1. apply IH.
    + apply (bind_grows _ _ 1 0 (length rest) 0);
        [apply plain_create_recipe_card_untouched |].
      intros c w1. apply IH.
Qed.

Lemma plain_apply_filters_untouched g w :
  disk_untouched w (snd (PlainApp.apply_filters g w))
  /\ grows (length (all_recipes w)) 0 w (snd (PlainApp.apply_filters g w)).
Proof.
  unfold PlainApp.apply_filters. cbv beta delta [bind gets lift] iota.
  destruct (all_recipes w) as [|r rest] eqn:Hall;
    [split; [apply disk_untouched_refl | apply grows_refl] |].
  destruct (ChefUI.select g (r :: rest)) as [current|e] eqn:Hsel.
  2:{ split; [apply disk_untouched_refl |].
      eapply grows_weaken; [| | apply grows_refl]; lia. }
  apply select_length in Hsel. unfold PlainApp.display_recipe_cards.
  destruct (plain_display_from_untouched current 0 [] w) as [Hd Hg].
  destruct (PlainApp.display_from 0 current [] w) as [[shown|e] w1];
    cbn [snd] in *; (split; [exact Hd |]);
    (eapply grows_weaken; [| | exact Hg]); lia.
Qed.

Lemma plain_gather_untouched ingredient w :
  disk_untouched w (snd (gather PlainApp.loop_body ingredient w)).
Proof.
  unfold gather. apply bind_untouched.
  - rewrite search_by_ingredient_spec. apply disk_untouched_fetch.
  - intros [results|] w1; [| apply disk_untouched_refl].
    apply bind_untouched; [apply disk_untouched_refl |]. intros n w2.
    destruct (n =? 0)%nat; [apply disk_untouched_refl |].
    apply bind_untouched; [apply disk_untouched_recipes |]. intros _ w3.
    apply bind_untouched; [apply disk_untouched_refl |]. intros meals w4.
    apply bind_untouched; [| intros _ w5; apply disk_untouched_refl].
    apply for_each_untouched, plain_loop_body_untouched.
Qed.

End Untouched.

(** X18.  The application without cache never touches the disk: after
    [search_recipes], however it ends, the files are the same and every
    event is a request; and it is bounded like the caching one, at most
    21 requests (the search, ten lookups, one picture for each card) and
    a recipe list as before or of at most ten recipes. *)
Theorem plain_search_never_touches_the_disk (g : gui) (w : world) (ingredient : string) :
  let w' := snd (PlainApp.search_recipes g ingredient w) in
  disk_untouched w w'
  /\ fetches w' <= fetches w + 21
  /\ (all_recipes w' = all_recipes w \/ length (all_recipes w') <= 10).
Proof.
  intros w'. subst w'. rewrite plain_search_recipes_gather. split.
  - apply bind_untouched; [apply plain_gather_untouched |].
    intros [] w1; [apply plain_apply_filters_untouched | apply disk_untouched_refl].
  - unfold bind.
    destruct (gather PlainApp.loop_body ingredient w) as [o w1] eqn:Hrun.
    destruct (gather_bounds PlainApp.loop_body ingredient w o w1
                plain_loop_body_grows Hrun) as (H1 & H2 & H3).
    destruct o as [[]|e]; unfold ret; cbn [fst snd] in *.
    + destruct H3 as [H3 | [_ H3]]; [| congruence].
      destruct (plain_apply_filters_untouched g w1)
        as (_ & _ & _ & _ & G4 & new & Hnew & Hlen).
      destruct new; [| cbn in Hlen; lia]. rewrite app_nil_r in Hnew.
      split; [lia |]. right. now rewrite Hnew.
    + split; [lia |]. destruct H3 as [H3 | [H3 _]]; [now right | now left].
    + split; [lia |]. destruct H3 as [H3 | [H3 _]]; [now right | now left].
Qed.

(** ** The cache does not change what a search finds *)

Section Agreement.

Lemma fst_get_recipe_details_remote id w1 w2 :
  remote w1 = remote w2 ->
  fst (MealAPI.get_recipe_details id w1) = fst (MealAPI.get_recipe_details id w2).
Proof. intros H. rewrite !get_recipe_details_spec. cbn [fst]. now rewrite H. Qed.

Lemma fst_get_recipe_details_text id1 id2 w :
  py_str id1 = py_str id2 ->
  fst (MealAPI.get_recipe_details id1 w) = fst (MealAPI.get_recipe_details id2 w).
Proof.
  intros H. rewrite !get_recipe_details_spec. unfold lookup_url. now rewrite H.
Qed.

Lemma remote_keyed_remote w w' : remote w' = remote w -> remote_keyed w -> remote_keyed w'.
Proof.
  intros Hr Hk id r Hget. apply Hk.
  now rewrite (fst_get_recipe_details_remote id w w') by (symmetry; exact Hr).
Qed.

Lemma cache_fresh_same w w' :
  remote w' = remote w -> fs w' = fs w -> cache_fresh w -> cache_fresh w'.
Proof.
  intros Hr Hf Hc id r Hcached.
  rewrite (fst_get_recipe_details_remote id w' w Hr). apply Hc.
  unfold cached in *. now rewrite <- Hf.
Qed.

(** Storing what was just fetched keeps the cache fresh. *)
Lemma cache_fresh_after_save w id r :
  remote_keyed w -> cache_fresh w ->
  fst (MealAPI.get_recipe_details id w) = Returned (Some r) ->
  cache_fresh (after_save r (add_event (Fetch (lookup_url id)) w)).
Proof.
  intros Hk Hc Hget id2 r2.
  set (w1 := add_event (Fetch (lookup_url id)) w).
  assert (Hr : remote (after_save r w1) = remote w)
    by (destruct (after_save_frame w1 r) as (-> & _); reflexivity).
  rewrite (fst_get_recipe_details_remote id2 _ w Hr).
  unfold after_save.
  destruct (write_fault w1 (ChefApp.recipe_cache_file (meal_id r))) as [| |partial].
  - rewrite cached_after_write. case_decide as Hp.
    + rewrite parse_record_stored. intros [= <-].
      apply recipe_cache_file_inj in Hp.
      rewrite <- (fst_get_recipe_details_text id id2); [exact Hget |].
      rewrite <- Hp. symmetry. now apply Hk.
    + apply Hc.
  - apply Hc.
  - rewrite cached_after_write. case_decide; [discriminate | apply Hc].
Qed.

(** The worlds of the two applications in step: the same remote source
    and recipe list, the caching one with no more requests, and a cache
    that agrees with the remote source. *)
Let in_step (wc wp : world) : Prop :=
  remote wc = remote wp
  /\ all_recipes wc = all_recipes wp
  /\ fetches wc <= fetches wp
  /\ remote_keyed wc
  /\ cache_fresh wc.

Lemma in_step_append r wc wp :
  in_step wc wp ->
  in_step (set_all_recipes (all_recipes wc ++ [r]) wc)
          (set_all_recipes (all_recipes wp ++ [r]) wp).
Proof.
  intros (H1 & H2 & H3 & H4 & H5). split; [exact H1 |]. split.
  { cbn [all_recipes set_all_recipes]. now rewrite H2. }
  split; [exact H3 |]. split.
  - now apply (remote_keyed_remote wc).
  - now apply (cache_fresh_same wc).
Qed.

Lemma loop_bodies_agree meal wc wp :
  in_step wc wp ->
  fst (ChefApp.loop_body meal wc) = fst (PlainApp.loop_body meal wp)
  /\ in_step (snd (ChefApp.loop_body meal wc)) (snd (PlainApp.loop_body meal wp)).
Proof.
  intros Hstep. pose proof Hstep as (H1 & H2 & H3 & H4 & H5).
  unfold ChefApp.loop_body, PlainApp.loop_body.
  destruct (subscript meal "idMeal") as [id|e] eqn:Hid.
  - cbv beta delta [bind lift] iota.
    rewrite (read_through_unfold wc meal id Hid).
    pose proof (fst_get_recipe_details_remote id wc wp H1) as Hsame.
    rewrite !get_recipe_details_spec in *. cbn [fst] in Hsame.
    set (wc1 := add_event (Fetch (lookup_url id)) wc).
    set (wp1 := add_event (Fetch (lookup_url id)) wp).
    assert (Hstep1 : in_step wc wp1).
    { repeat split; try assumption. unfold wp1. rewrite fetches_add_fetch. lia. }
    assert (Hstep2 : in_step wc1 wp1).
    { repeat split; try assumption.
      - unfold wc1, wp1. rewrite !fetches_add_fetch. lia.
      - now apply (remote_keyed_remote wc).
      - now apply (cache_fresh_same wc). }
    destruct (if read_fault wc _ then None else cached wc id) as [r|] eqn:Hhit.
    + assert (Hc : cached wc id = Some r)
        by (destruct (read_fault wc _); [discriminate | exact Hhit]).
      apply H5 in Hc. rewrite get_recipe_details_spec in Hc. cbn [fst] in Hc.
      rewrite <- Hsame, Hc. cbv beta delta [modify] iota. cbn [fst snd].
      split; [reflexivity |]. now apply in_step_append.
    + rewrite <- Hsame.
      destruct (match remote wc (lookup_url id) with
                | Reply true (Doc data) => _
                | _ => _
                end) as [[r|]|e] eqn:Hget.
      * cbv beta delta [modify] iota. cbn [fst snd].
        split; [reflexivity |]. apply in_step_append.
        destruct Hstep2 as (G1 & G2 & G3 & G4 & G5).
        destruct (after_save_frame wc1 r) as (F1 & _ & _ & F4).
        repeat split.
        -- now rewrite F1.
        -- now rewrite F4.
        -- now rewrite fetches_after_save.
        -- apply (remote_keyed_remote wc); [exact F1 | exact H4].
        -- apply cache_fresh_after_save; try assumption.
           rewrite get_recipe_details_spec. cbn [fst]. exact Hget.
      * cbv beta delta [ret] iota. cbn [fst snd]. split; [reflexivity | exact Hstep2].
      * cbn [fst snd]. split; [reflexivity | exact Hstep2].
  - unfold ChefApp.read_through. cbv beta delta [bind lift] iota. rewrite Hid.
    cbn [fst snd]. split; [reflexivity | exact Hstep].
Qed.

Lemma loops_agree meals : forall wc wp,
  in_step wc wp ->
  fst (for_each meals ChefApp.loop_body wc) = fst (for_each meals PlainApp.loop_body wp)
  /\ in_step (snd (for_each meals ChefApp.loop_body wc))
             (snd (for_each meals PlainApp.loop_body wp)).
Proof.
  induction meals as [|meal meals IH]; intros wc wp Hstep.
  - cbn. split; [reflexivity | exact Hstep].
  - cbn [for_each]. unfold bind.
    destruct (loop_bodies_agree meal wc wp Hstep) as [Ho Hs].
    destruct (ChefApp.loop_body meal wc) as [oc wc'].
    destruct (PlainApp.loop_body meal wp) as [op wp'].
    cbn [fst snd] in Ho, Hs. subst op.
    destruct oc as [[]|e]; [apply IH, Hs |].
    cbn [fst snd]. split; [reflexivity | exact Hs].
Qed.

Lemma bind_agree {A B} (m : M A) (k1 k2 : A -> M B) w :
  in_step (snd (m w)) (snd (m w)) ->
  (forall a w1, in_step w1 w1 ->
     fst (k1 a w1) = fst (k2 a w1) /\ in_step (snd (k1 a w1)) (snd (k2 a w1))) ->
  fst (bind m k1 w) = fst (bind m k2 w)
  /\ in_step (snd (bind m k1 w)) (snd (bind m k2 w)).
Proof.
  intros Hm Hk. unfold bind. destruct (m w) as [[a|e] w1]; cbn [fst snd] in *.
  - now apply Hk.
  - split; [reflexivity | exact Hm].
Qed.

Lemma gathers_agree w ingredient :
  remote_keyed w -> cache_fresh w ->
  fst (gather ChefApp.loop_body ingredient w) = fst (gather PlainApp.loop_body ingredient w)
  /\ in_step (snd (gather ChefApp.loop_body ingredient w))
             (snd (gather PlainApp.loop_body ingredient w)).
Proof.
  intros Hk Hc. unfold gather. apply bind_agree.
  - rewrite search_by_ingredient_spec. cbn [snd]. repeat split; try lia.
    + now apply (remote_keyed_remote w).
    + now apply (cache_fresh_same w).
  - intros [results|] w1 Hstep;
      [| cbn [fst snd]; split; [reflexivity | exact Hstep]].
    cbv beta delta [bind lift modify ret] iota.
    destruct (py_len results) as [n|e];
      [| cbn [fst snd]; split; [reflexivity | exact Hstep]].
    destruct (n =? 0)%nat; [cbn [fst snd]; split; [reflexivity | exact Hstep] |].
    assert (Hstep0 : in_step (set_all_recipes [] w1) (set_all_recipes [] w1)).
    { destruct Hstep as (G1 & G2 & G3 & G4 & G5). split; [reflexivity |].
      split; [reflexivity |]. split; [lia |]. split.
      - now apply (remote_keyed_remote w1).
      - now apply (cache_fresh_same w1). }
    destruct (py_slice results 10) as [meals|e];
      [| cbn [fst snd]; split; [reflexivity | exact Hstep0]].
    destruct (loops_agree meals _ _ Hstep0) as [Ho Hs].
    destruct (for_each meals ChefApp.loop_body (set_all_recipes [] w1)) as [oc wc'].
    destruct (for_each meals PlainApp.loop_body (set_all_recipes [] w1)) as [op wp'].
    cbn [fst snd] in Ho, Hs. subst op.
    destruct oc as [[]|e]; cbn [fst snd]; split; try reflexivity; exact Hs.
Qed.

(** A card of the caching application either fails on its identifier
    before anything happens, or loads its picture and ends as its label
    ends. *)
Lemma create_recipe_card_effect r w :
  (hashable (meal_id r) = false
   /\ ChefUI.create_recipe_card r w = (Raised TypeError, w))
  \/ (hashable (meal_id r) = true
      /\ exists photo w',
           ChefApp.load_image_cached (thumbnail r) (meal_id r) 120 90 w
           = (Returned photo, w')
           /\ ChefUI.create_recipe_card r w
              = ((text <~ ChefUI.label_text (name r); Returned (text, photo))%out, w')).
Proof.
  unfold ChefUI.create_recipe_card.
  destruct (hashable (meal_id r)); [right | left; split; reflexivity].
  split; [reflexivity |]. unfold bind at 1. unfold ret at 1. unfold bind at 1.
  destruct (load_image_cached_keeps (thumbnail r) (meal_id r) 120 90 w)
    as (photo & w' & Hrun & _).
  exists photo, w'. split; [exact Hrun |]. rewrite Hrun.
  cbv beta delta [bind lift ret] iota.
  destruct (ChefUI.label_text (name r)); reflexivity.
Qed.

(** One card in the two applications: the same label or the same
    exception, and the caching one sends no more requests. *)
Lemma cards_agree r wc wp :
  fetches wc <= fetches wp ->
  all_recipes (snd (ChefUI.create_recipe_card r wc)) = all_recipes wc
  /\ all_recipes (snd (PlainApp.create_recipe_card r wp)) = all_recipes wp
  /\ fetches (snd (ChefUI.create_recipe_card r wc))
     <= fetches (snd (PlainApp.create_recipe_card r wp))
  /\ match fst (ChefUI.create_recipe_card r wc),
           fst (PlainApp.create_recipe_card r wp) with
     | Returned c, Returned c' => fst c = fst c'
     | Raised e, Raised e' => e = e'
     | _, _ => False
     end.
Proof.
  intros Hf.
  destruct (plain_create_recipe_card_effect r wp) as [[Hh ->] | [Hh [photo' ->]]];
    destruct (create_recipe_card_effect r wc)
      as [[Hh' ->] | [Hh' (photo & wc' & Hload & ->)]]; try congruence.
  - cbn [fst snd]. repeat split; exact Hf.
  - destruct (load_image_cached_keeps (thumbnail r) (meal_id r) 120 90 wc)
      as (photo0 & wc0 & Hrun & _ & Hfc & Hac & _).
    rewrite Hload in Hrun. injection Hrun as <- <-.
    cbn [fst snd]. rewrite fetches_add_fetch.
    split; [exact Hac |]. split; [reflexivity |]. split; [lia |].
    destruct (ChefUI.label_text (name r)) as [text|e]; reflexivity.
Qed.

Lemma displays_agree current : forall idx shownc shownp wc wp,
  map face shownc = map face shownp ->
  fetches wc <= fetches wp ->
  all_recipes (snd (ChefUI.display_from idx current shownc wc)) = all_recipes wc
  /\ all_recipes (snd (PlainApp.display_from idx current shownp wp)) = all_recipes wp
  /\ fetches (snd (ChefUI.display_from idx current shownc wc))
     <= fetches (snd (PlainApp.display_from idx current shownp wp))
  /\ match fst (ChefUI.display_from idx current shownc wc),
           fst (PlainApp.display_from idx current shownp wp) with
     | Returned l, Returned l' => map face l = map face l'
     | Raised e, Raised e' => e = e'
     | _, _ => False
     end.
Proof.
  induction current as [|r rest IH]; intros idx shownc shownp wc wp Hshown Hf.
  - cbn. repeat split; assumption.
  - cbn [ChefUI.display_from PlainApp.display_from]. cbv zeta. unfold bind.
    destruct (cards_agree r wc wp Hf) as (Hac & Hap & Hf1 & Ho).
    destruct (ChefUI.create_recipe_card r wc) as [[c|e] wc1];
      destruct (PlainApp.create_recipe_card r wp) as [[c'|e'] wp1];
      cbn [fst snd] in *; try contradiction.
    + destruct (IH (S idx) (shownc ++ [mkCard (idx / 5) (idx mod 5) (fst c) (snd c)])
                  (shownp ++ [mkCard (idx / 5) (idx mod 5) (fst c') (snd c')])
                  wc1 wp1) as (G1 & G2 & G3 & G4).
      * rewrite !map_app, Hshown. cbn [map face card_row card_col card_text].
        now rewrite Ho.
      * exact Hf1.
      * repeat split; try congruence; assumption.
    + repeat split; assumption.
Qed.

Lemma apply_filters_agree g wc wp :
  all_recipes wc = all_recipes wp ->
  fetches wc <= fetches wp ->
  same_display (fst (ChefUI.apply_filters g wc)) (fst (PlainApp.apply_filters g wp))
  /\ all_recipes (snd (ChefUI.apply_filters g wc))
     = all_recipes (snd (PlainApp.apply_filters g wp))
  /\ fetches (snd (ChefUI.apply_filters g wc))
     <= fetches (snd (PlainApp.apply_filters g wp)).
Proof.
  intros Ha Hf. unfold ChefUI.apply_filters, PlainApp.apply_filters.
  cbv beta delta [bind gets lift] iota. rewrite <- Ha.
  destruct (all_recipes wc) as [|r rest] eqn:Hall.
  { cbn [fst snd ret same_display]. unfold ret. cbn [fst snd].
    repeat split; congruence. }
  destruct (ChefUI.select g (r :: rest)) as [current|e];
    [| cbn [fst snd same_display]; repeat split; congruence].
  unfold ChefUI.display_recipe_cards, PlainApp.display_recipe_cards.
  destruct (displays_agree current 0 [] [] wc wp eq_refl Hf) as (G1 & G2 & G3 & G4).
  destruct (ChefUI.display_from 0 current [] wc) as [[l|e] wc1];
    destruct (PlainApp.display_from 0 current [] wp) as [[l'|e'] wp1];
    cbn [fst snd] in *; try contradiction.
  - unfold ret. cbn [fst snd same_display current_recipes filter_chicken filter_beef
                     filter_seafood cards].
    repeat split; congruence.
  - cbn [same_display]. repeat split; congruence.
Qed.

Lemma searches_agree g w ingredient :
  remote_keyed w -> cache_fresh w ->
  same_display (fst (ChefUI.search_recipes g ingredient w))
               (fst (PlainApp.search_recipes g ingredient w))
  /\ all_recipes (snd (ChefUI.search_recipes g ingredient w))
     = all_recipes (snd (PlainApp.search_recipes g ingredient w))
  /\ fetches (snd (ChefUI.search_recipes g ingredient w))
     <= fetches (snd (PlainApp.search_recipes g ingredient w)).
Proof.
  intros Hk Hc. rewrite search_recipes_gather, plain_search_recipes_gather.
  unfold bind.
  destruct (gathers_agree w ingredient Hk Hc) as (Ho & _ & Ha & Hf & _).
  destruct (gather ChefApp.loop_body ingredient w) as [oc wc].
  destruct (gather PlainApp.loop_body ingredient w) as [op wp].
  cbn [fst snd] in *. subst op.
  destruct oc as [[]|e].
  - now apply apply_filters_agree.
  - unfold ret. cbn [fst snd same_display]. repeat split; assumption.
  - cbn [fst snd same_display]. repeat split; assumption.
Qed.

End Agreement.

(** X19.  On a cache that agrees with the remote source (every cached
    record is what the source serves for its identifier, and the source
    files records under the identifier asked for), and for search
    results whose identifiers hold no slash, the caching application
    finds and shows what the application without cache finds and shows:
    [search_recipes] ends the same way in both, with the same recipe
    list, the same recipes on display and cards with the same labels in
    the same places, and the caching one never sends more requests.  The
    pictures on the cards may differ. *)
Theorem cache_does_not_change_results (g : gui) (w : world) (ingredient : string) :
  remote_keyed w ->
  cache_fresh w ->
  (forall results meals,
     fst (MealAPI.search_by_ingredient ingredient w) = Returned (Some results) ->
     py_slice results 10 = Returned meals -> plain_ids meals) ->
  same_display (fst (ChefUI.search_recipes g ingredient w))
               (fst (PlainApp.search_recipes g ingredient w))
  /\ all_recipes (snd (ChefUI.search_recipes g ingredient w))
     = all_recipes (snd (PlainApp.search_recipes g ingredient w))
  /\ fetches (snd (ChefUI.search_recipes g ingredient w))
     <= fetches (snd (PlainApp.search_recipes g ingredient w)).
Proof.
  intros Hk Hc _. now apply searches_agree.
Qed.

Lemma cookbook_keyed files : remote_keyed (world_of cookbook_remote files).
Proof.
  intros id r. rewrite get_recipe_details_spec. cbn [fst remote world_of].
  unfold cookbook_remote.
  destruct (String.eqb (lookup_url id) (search_url "egg")).
  - intros H. vm_compute in H. discriminate.
  - unfold example_remote.
    destruct (String.eqb_spec (lookup_url id) (lookup_url (JStr "52772"))) as [Heq|_];
      [| discriminate].
    intros H. vm_compute in H. injection H as <-.
    unfold lookup_url in Heq. do 2 apply String.app_inj in Heq.
    cbn [meal_id py_str] in *. now symmetry.
Qed.

Lemma cold_cache_fresh r : cache_fresh (world_of r ∅).
Proof. intros id rec. unfold cached. cbn [fs world_of]. now rewrite lookup_empty. Qed.

Lemma cache_does_not_change_results_witness :
  all_recipes (snd (ChefUI.search_recipes (mkGui [] false false false []) "egg"
                      (world_of cookbook_remote ∅)))
  = all_recipes (snd (PlainApp.search_recipes (mkGui [] false false false []) "egg"
                        (world_of cookbook_remote ∅))).
Proof.
  apply (proj1 (proj2 (cache_does_not_change_results (mkGui [] false false false [])
                         (world_of cookbook_remote ∅) "egg"
                         (cookbook_keyed ∅) (cold_cache_fresh cookbook_remote)
                         ltac:(intros results meals Hs Hm; vm_compute in Hs;
                               injection Hs as <-; vm_compute in Hm;
                               injection Hm as <-;
                               constructor; [| constructor];
                               intros id Hid; vm_compute in Hid;
                               injection Hid as <-; reflexivity)))).
Defined.

(** X27.  An empty search box searches nothing.  When the text of the
    entry is empty or white space only, [do_search] leaves the dialog
    open, the display and the world as they are, and no request is sent;
    otherwise it closes the dialog, runs [search_recipes] on the text
    without the white space around it, and ends as that search ends. *)
Theorem blank_search_sends_nothing (g : gui) (text : string) (w : world) :
  (Py.strip text = EmptyString ->
   ChefUI.do_search g text w = (Returned (false, g), w))
  /\ (Py.strip text <> EmptyString ->
      snd (ChefUI.do_search g text w)
      = snd (ChefUI.search_recipes g (Py.strip text) w)
      /\ fst (ChefUI.do_search g text w)
         = (g' <~ fst (ChefUI.search_recipes g (Py.strip text) w);
            Returned (true, g'))%out).
Proof.
  unfold ChefUI.do_search. cbv zeta. split.
  - now intros ->.
  - intros Hne. destruct (Py.strip text) as [|c s] eqn:Hs; [congruence |].
    cbn [Py.is_empty]. cbv beta delta [bind ret] iota.
    destruct (ChefUI.search_recipes g (String c s) w) as [[g'|e] w1];
      cbn [fst snd obind]; split; reflexivity.
Qed.

Lemma blank_search_sends_nothing_witness :
  ChefUI.do_search (mkGui [] false false false []) "   " (world_of cookbook_remote ∅)
  = (Returned (false, mkGui [] false false false []), world_of cookbook_remote ∅)
  /\ snd (ChefUI.do_search (mkGui [] false false false []) " egg "
            (world_of cookbook_remote ∅))
     = snd (ChefUI.search_recipes (mkGui [] false false false []) "egg"
              (world_of cookbook_remote ∅)).
Proof.
  split.
  - apply (proj1 (blank_search_sends_nothing _ "   " _)). reflexivity.
  - apply (proj1 (proj2 (blank_search_sends_nothing (mkGui [] false false false [])
                           " egg " (world_of cookbook_remote ∅))
                    ltac:(vm_compute; discriminate))).
Defined.

(** ** A repeated search *)

Section Repeated.

(** What a loop over found results needs, and keeps. *)
Let settled (w : world) : Prop := no_faults w /\ remote_keyed w /\ cache_fresh w.





(** What drawing the cards keeps: the remote source, the faults of the
    store, the recipe list, the record cache, and every file that is
    there. *)
Let kept (w w' : world) : Prop :=
  remote w' = remote w
  /\ read_fault w' = read_fault w
  /\ write_fault w' = write_fault w
  /\ all_recipes w' = all_recipes w
  /\ (forall id, cached w' id = cached w id)
  /\ (forall p, is_Some (fs w !! p) -> is_Some (fs w' !! p)).




Lemma settled_kept w w' : kept w w' -> settled w -> settled w'.
Proof.
  intros (H1 & H2 & H3 & H4 & H5 & H6) ((Hrf & Hwf) & Hk & Hc).
  split; [split; intros p; [rewrite H2; apply Hrf | rewrite H3; apply Hwf] |].
  split; [now apply (remote_keyed_remote w) |].
  intros id r Hcached. rewrite H5 in Hcached.
  rewrite (fst_get_recipe_details_remote id w' w H1). now apply Hc.
Qed.











End Repeated.


